(** * OpenLambda guest-side server (server_combined.py)

    A shallow embedding of [min-image/runtimes/python/server_combined.py]:
    the zygote cache loop, the fork server and the sandbox bootstrap, the
    Tornado request handler and the command-line entry point, together with
    the properties of the process-lifecycle engine that the design document
    states about them. *)

From Stdlib Require Import ZArith Lia List Bool Ascii String.
From stdpp Require Import base option list gmap strings pretty.
Import ListNotations.

#[local] Set Warnings "-clear-no-such-hyp".


Local Open Scope Z_scope.

(** ** Python values shared by all components *)

(** A raised Python exception.  [exc_is_Exception] tells whether its class
    derives from [Exception]; [SystemExit], [KeyboardInterrupt] and
    [GeneratorExit] derive from [BaseException] only and pass through an
    [except Exception] clause. *)
Record py_exc := PyExc {
  exc_class : string;
  exc_msg : string;            (* str(err) *)
  exc_is_Exception : bool
}.

Definition IndexError : py_exc :=
  PyExc "IndexError" "list index out of range" true.
Definition AssertionError : py_exc :=
  PyExc "AssertionError" "" true.

(** What a process has written to [sys.stdout]: the printed texts (without
    the newline [print] adds), the points where [redirect()] replaced the
    stream by a fresh handle on [/host/stdout], and the points where it
    closed the stream and failed to replace it. *)
Inductive out_event :=
| Printed (text : string)
| Reopened
| Closed.

(** ** Global variables (lines 22-35) *)

Definition HOST_DIR := "/host".
Definition PKGS_DIR := "/packages".
Definition HANDLER_DIR := "/handler".
Definition path_join (a b : string) : string := a +:+ "/" +:+ b.
Definition FS_PATH := path_join HOST_DIR "fs.sock".
Definition SOCK_PATH := path_join HOST_DIR "ol.sock".
Definition STDOUT_PATH := path_join HOST_DIR "stdout".
Definition STDERR_PATH := path_join HOST_DIR "stderr".
Definition SERVER_PIPE_PATH := path_join HOST_DIR "server_pipe".
Definition PROCESSES_DEFAULT := 10.

(** ** [str.split()] without arguments

    Characters are code points below 256.  The code points for which
    [str.isspace()] holds in that range are U+0009..U+000D, U+001C..U+0020,
    U+0085 and U+00A0. *)
Definition is_space (c : ascii) : bool :=
  let n := Z.of_nat (nat_of_ascii c) in
  ((9 <=? n) && (n <=? 13)) || ((28 <=? n) && (n <=? 32))
  || (n =? 133) || (n =? 160).

(** [split_from cur s]: [cur] is the token being read, [s] what is left. *)
Fixpoint split_from (cur : string) (s : string) : list string :=
  match s with
  | EmptyString => match cur with EmptyString => [] | _ => [cur] end
  | String c s' =>
      if is_space c then
        match cur with
        | EmptyString => split_from "" s'
        | _ => cur :: split_from "" s'
        end
      else split_from (cur +:+ String c "") s'
  end.

Definition py_split (s : string) : list string := split_from "" s.

(** ** The cache loop (lines 130-175) *)

(** An imported module object, as [importlib.import_module] returns it:
    an instance of the module type, which cannot be called and is neither a
    string nor an exception class.  Only its name matters here. *)
Inductive py_module := Module (name : string).

(** State of one process running [cache_loop]: the local variables
    [signal], [r] and [count], the module globals, and what the process
    wrote to its standard output. *)
Record cl_state := ClState {
  cl_signal : string;
  cl_r : Z;
  cl_count : Z;
  cl_globals : gmap string py_module;
  cl_out : list out_event
}.

Definition cl_log (ev : out_event) (st : cl_state) : cl_state :=
  ClState (cl_signal st) (cl_r st) (cl_count st) (cl_globals st)
          (cl_out st ++ [ev]).

Definition cl_print (text : string) (st : cl_state) : cl_state :=
  cl_log (Printed text) st.

Definition set_signal (s : string) (st : cl_state) : cl_state :=
  ClState s (cl_r st) (cl_count st) (cl_globals st) (cl_out st).

Definition set_global (k : string) (m : py_module) (st : cl_state) : cl_state :=
  ClState (cl_signal st) (cl_r st) (cl_count st) (<[k:=m]> (cl_globals st))
          (cl_out st).

Definition incr_count (st : cl_state) : cl_state :=
  ClState (cl_signal st) (cl_r st) (cl_count st + 1) (cl_globals st)
          (cl_out st).

(** Local variables at entry of the loop (lines 133-135). *)
Definition cl_init (out : list out_event) : cl_state :=
  ClState "cache" (-1) 0 ∅ out.

(** The [while] condition of line 138. *)
Definition loop_cond (st : cl_state) : bool :=
  negb (cl_r st =? 0) || String.eqb (cl_signal st) "cache".

(** Lines 146-150: [data = line.split(); mods = data[:-1];
    signal = data[-1]].  The slice never fails; the index does on an empty
    list. *)
Definition parse_control (line : string) : py_exc + (list string * string) :=
  let data := py_split line in
  let mods := removelast data in
  match data with
  | [] => inl IndexError
  | _ => inr (mods, List.last data "")
  end.

(** A statement run in a state: the exception it raises, if any, and the
    state it leaves. *)
Definition cl_step : Type := cl_state -> option py_exc * cl_state.

Definition cl_pass : cl_step := λ st, (None, st).
Definition cl_do (f : cl_state -> cl_state) : cl_step := λ st, (None, f st).

(** Two statements in sequence. *)
Definition cl_seq (p q : cl_step) : cl_step :=
  λ st, match p st with
        | (None, st') => q st'
        | (Some err, st') => (Some err, st')
        end.

Declare Scope step_scope.
Delimit Scope step_scope with step.
Notation "p ;; q" := (cl_seq p q)
  (at level 100, q at level 200, right associativity) : step_scope.
Local Open Scope step_scope.

(** Line 161 stores every imported module in [globals()] under the name
    of the module.  That dictionary is where the loop finds the functions
    and constants of the file, and it is searched before the builtins: once
    a module is stored under such a name, the name yields the module.  (The
    names [sys] and [importlib] are bound to modules from the start, and
    importing those again gives the same objects; [ns] is a local
    variable.) *)
Definition rebound (name : string) (st : cl_state) : bool :=
  match cl_globals st !! name with
  | Some _ => true
  | None => false
  end.

(** What using a module in the place of a function, of a path, of an
    exception class or of the string that the native [ns.fdlisten] expects
    raises. *)
Definition not_callable : py_exc :=
  PyExc "TypeError" "'module' object is not callable" true.
Definition not_a_path : py_exc :=
  PyExc "TypeError" "expected str, bytes or os.PathLike object, not module"
        true.
Definition not_a_class : py_exc :=
  PyExc "TypeError"
        "catching classes that do not inherit from BaseException is not allowed"
        true.
Definition not_a_str : py_exc :=
  PyExc "TypeError" "argument 1 must be str, not module" true.

(** A call [name(...)] of a function of the file or of a builtin. *)
Definition call (name : string) (body : cl_step) : cl_step :=
  λ st, if rebound name st then (Some not_callable, st) else body st.

Definition print (text : string) : cl_step :=
  call "print" (cl_do (cl_print text)).

(** [flush()] (lines 39-41) writes nothing new. *)
Definition flush : cl_step := call "flush" cl_pass.

(** The body of [redirect()] (lines 44-48): both streams are closed, then
    reopened on the host files, the standard output first. *)
Definition redirect : cl_step :=
  λ st,
    if rebound "open" st then (Some not_callable, cl_log Closed st)
    else if rebound "STDOUT_PATH" st then (Some not_a_path, cl_log Closed st)
    else
      let st := cl_log Reopened st in
      if rebound "STDERR_PATH" st then (Some not_a_path, st) else (None, st).

(** [try: body / except Exception as err: handler].  The class named by
    the clause is looked up when an exception arrives. *)
Definition try_except (body : cl_step) (handler : py_exc -> cl_step)
    : cl_step :=
  λ st, match body st with
        | (None, st') => (None, st')
        | (Some err, st') =>
            if rebound "Exception" st' then (Some not_a_class, st')
            else if exc_is_Exception err then handler err st'
            else (Some err, st')
        end.

(** Line 161, [globals()[mod] = importlib.import_module(mod)]: the import
    comes first, then the call of [globals], then the store.
    [import_module] is [importlib.import_module]: it returns the module or
    raises. *)
Definition bind_module (import_module : string -> py_exc + py_module)
    (mod_ : string) : cl_step :=
  λ st, match import_module mod_ with
        | inl err => (Some err, st)
        | inr m => call "globals" (cl_do (set_global mod_ m)) st
        end.

(** Lines 158-163: the import loop. *)
Fixpoint import_modules (import_module : string -> py_exc + py_module)
    (mods : list string) : cl_step :=
  match mods with
  | [] => cl_pass
  | mod_ :: rest =>
      print ("importing: " +:+ mod_) ;;
      try_except (bind_module import_module mod_)
        (λ err,
           print ("failed to import " +:+ mod_ +:+ ": " +:+ exc_msg err)) ;;
      import_modules import_module rest
  end.

(** Lines 154-166: what the process does when [ns.forkenter()] returned 0. *)
Definition child_branch (import_module : string -> py_exc + py_module)
    (mods : list string) (signal : string) : cl_step :=
  call "redirect" redirect ;;
  import_modules import_module mods ;;
  print ("signal: " +:+ signal) ;;
  flush.

(** What one process observes in one iteration: the line returned by
    [ns.fdlisten(FS_PATH)] and the value returned by [ns.forkenter()]. *)
Record cl_event := ClEvent { ev_line : string; ev_fork : Z }.

(** Lines 139-146: up to the point where the process blocks in
    [ns.fdlisten], which is handed the value of [FS_PATH]. *)
Definition before_listen : cl_step :=
  (λ st, if cl_r st =? 0 then (print "RESET" ;; flush) st else (None, st)) ;;
  print "LISTENING" ;;
  flush ;;
  (λ st, if rebound "FS_PATH" st then (Some not_a_str, st) else (None, st)).

(** One pass through the body of the loop (lines 139-171). *)
Definition loop_body (import_module : string -> py_exc + py_module)
    (ev : cl_event) : cl_step :=
  before_listen ;;
  flush ;;
  (λ st,
     match parse_control (ev_line ev) with
     | inl err => (Some err, st)
     | inr (mods, signal) =>
         (cl_do (set_signal signal) ;;
          (let ret_val := ev_fork ev in
           if ret_val =? 0 then child_branch import_module mods signal
           else cl_pass) ;;
          print "" ;;
          flush ;;
          cl_do incr_count) st
     end).

(** Where a process running [cache_loop] ends up once the events it
    observes are used up. *)
Inductive cl_result :=
| Serving (st : cl_state)             (* left the loop: line 173 onwards *)
| Listening (st : cl_state)           (* blocked in [ns.fdlisten] *)
| Crashed (err : py_exc) (st : cl_state).   (* an exception left the loop *)

Fixpoint cache_loop_from (import_module : string -> py_exc + py_module)
    (events : list cl_event) (st : cl_state) : cl_result :=
  if loop_cond st then
    match events with
    | [] =>
        match before_listen st with
        | (None, st) => Listening st
        | (Some err, st) => Crashed err st
        end
    | ev :: rest =>
        match loop_body import_module ev st with
        | (Some err, st) => Crashed err st
        | (None, st) => cache_loop_from import_module rest st
        end
    end
  else
    match (print "SERVING HANDLERS" ;; flush) st with
    | (None, st) => Serving st
    | (Some err, st) => Crashed err st
    end.

Definition cache_loop (import_module : string -> py_exc + py_module)
    (events : list cl_event) (out : list out_event) : cl_result :=
  cache_loop_from import_module events (cl_init out).

Local Close Scope step_scope.

(** ** Processes and the operations they perform *)

(** The operations of a process that the fork server, the sandbox bootstrap
    and [main] are made of.  Values returned by the operating system or by
    the native [ol] module are recorded in the operation. *)
Inductive action :=
| Accept (client : nat)                    (* file_sock.accept() *)
| RecvFds (client : nat) (fds : list nat)  (* socket.recv_fds(client, 8, 2) *)
| Fork (ret : Z)                           (* os.fork() *)
| Close (fd : nat)                         (* os.close(fd), sock.close() *)
| Waitpid (pid : Z)                        (* os.waitpid(pid, 0) *)
| Sendall (client : nat) (data : list Z)   (* client.sendall(data) *)
| Fchdir (fd : nat)
| Chroot (path : string)
| WriteFd (fd : nat) (data : string)       (* os.write, file.write *)
| Unshare (ret : Z)                        (* ol.unshare() *)
| BindUnix (path : string)                 (* tornado.netutil.bind_unix_socket *)
| ReadFile (path : string)                 (* open(path).read() *)
| Exec (code : string)                     (* exec(code) *)
| Stdout (text : string)                   (* print(text) *)
| EnableSeccomp (ret : Z)                  (* ol.enable_seccomp() *)
| Exit (code : Z)                          (* os._exit(code), sys.exit(code) *)
| Raise (err : py_exc)                     (* an exception leaves the function *)
| ServeForever.                            (* a call that does not return *)

(** How a block of code is left. *)
Inductive flow :=
| Continues                  (* control reaches the end of the block *)
| Exits (code : Z)           (* the process has ended with this status *)
| Raises (err : py_exc)      (* an exception propagates to the caller *)
| Never                      (* the process stays in a call for ever *)
| Waiting.                   (* blocked until the environment sends more *)

(** A block of code, run against given answers of the environment, is the
    list of operations it performs and the way it is left. *)
Definition block : Type := list action * flow.

Definition skip : block := ([], Continues).
Definition act (a : action) : block := ([a], Continues).
Definition raise (err : py_exc) : block := ([Raise err], Raises err).
Definition exit_ (code : Z) : block := ([Exit code], Exits code).

(** Sequencing: the second block runs only if the first is left at its
    end. *)
Definition and_then (p q : block) : block :=
  match snd p with
  | Continues => (fst p ++ fst q, snd q)
  | _ => p
  end.

Declare Scope block_scope.
Delimit Scope block_scope with block.
Bind Scope block_scope with block.
Notation "p ;; q" := (and_then p q)
  (at level 100, q at level 200, right associativity) : block_scope.
Local Open Scope block_scope.

(** [struct.pack("I", n)]: four bytes, least significant first (the native
    order of the x86-64 and arm64 guests); [struct.error] outside
    [0, 2^32). *)
Definition struct_error : py_exc :=
  PyExc "struct.error" "argument out of range" true.

Definition struct_pack_I (n : Z) : option (list Z) :=
  if (0 <=? n) && (n <? 2 ^ 32) then
    Some [Z.land n 255; Z.land (Z.shiftr n 8) 255;
          Z.land (Z.shiftr n 16) 255; Z.land (Z.shiftr n 24) 255]
  else None.

(** [struct.unpack("I", data)[0]], what the caller does with the reply. *)
Definition struct_unpack_I (data : list Z) : option Z :=
  match data with
  | [b0; b1; b2; b3] =>
      Some (Z.lor b0 (Z.lor (Z.shiftl b1 8)
                     (Z.lor (Z.shiftl b2 16) (Z.shiftl b3 24))))
  | _ => None
  end.

(** [str(n)] for an integer. *)
Definition py_str_int (n : Z) : string := pretty n.

(** [a, b = fds] (line 205). *)
Definition unpack_error (got : nat) : py_exc :=
  if (got <? 2)%nat then
    PyExc "ValueError"
      ("not enough values to unpack (expected 2, got " +:+ pretty got +:+ ")")
      true
  else PyExc "ValueError" "too many values to unpack (expected 2)" true.

(** [socket.recv_fds(sock, bufsize, maxfds)]: the ancillary buffer has room
    for [maxfds] descriptors, so at most that many of the attached ones are
    returned. *)
Definition recv_fds (maxfds : nat) (attached : list nat) : list nat :=
  take maxfds attached.

(** ** The sandbox bootstrap, [start_sock_container] (lines 244-282) *)

(** What running the bootstrap script does. *)
Inductive exec_outcome :=
| ExecReturns
| ExecRaises (err : py_exc)
| ExecServes.          (* it called web_server() or fork_server() *)

(** What the environment answers to one call of [start_sock_container]. *)
Record sandbox_env := SandboxEnv {
  sb_unshare : Z;                 (* return value of ol.unshare() *)
  sb_bind : option py_exc;        (* bind_unix_socket raising, if it does *)
  sb_fork : Z;                    (* what os.fork() of line 264 returns in
                                     the process that calls it *)
  sb_bootstrap : py_exc + string; (* text of the file at bootstrap_path *)
  sb_exec : exec_outcome
}.

(** [traceback.format_exc()] while [err] is being handled: the header, the
    stack entries, and the line naming the exception, which is the class
    alone when the exception has no message. *)
Definition format_exc (frames : string) (err : py_exc) : string :=
  "Traceback (most recent call last):" +:+ String "010" ""
  +:+ frames +:+ exc_class err
  +:+ (if String.eqb (exc_msg err) "" then "" else ": " +:+ exc_msg err)
  +:+ String "010" "".

Section Bootstrap.
(** The global [bootstrap_path] set by [main], and the stack entries a
    traceback taken at line 281 shows. *)
Variables (bootstrap_path frames : string).
Variable env : sandbox_env.

(** Lines 255-262: up to the fork. *)
Definition start_sock_container_pre : block :=
  let return_val := sb_unshare env in
  act (Unshare return_val) ;;
  (if return_val =? 0 then skip else raise AssertionError) ;;
  match sb_bind env with
  | Some err => raise err
  | None => act (BindUnix SOCK_PATH)
  end.

(** Lines 273-282: the bootstrap script is read and run. *)
Definition run_bootstrap : block :=
  match sb_bootstrap env with
  | inl err => raise err
  | inr code =>
      act (ReadFile bootstrap_path) ;;
      act (Exec code) ;;
      match sb_exec env with
      | ExecReturns => skip
      | ExecServes => ([ServeForever], Never)
      | ExecRaises err =>
          if exc_is_Exception err then
            act (Stdout ("Exception: " +:+ format_exc frames err)) ;;
            act (Stdout ("Problematic Python Code:" +:+ String "010" ""
                         +:+ code))
          else raise err
      end
  end.

(** Lines 265-282, in a process to which [os.fork()] returned [pid]. *)
Definition start_sock_container_post (pid : Z) : block :=
  (if pid >=? 0 then skip else raise AssertionError) ;;
  if pid >? 0 then exit_ 0 else run_bootstrap.

(** The whole function as one process goes through it; [pid] is what the
    fork of line 264 returns to that process. *)
Definition start_sock_container (pid : Z) : block :=
  start_sock_container_pre ;; act (Fork pid) ;; start_sock_container_post pid.
End Bootstrap.

(** ** The fork server (lines 196-241) *)

(** One sandbox-creation request, as the processes that handle it meet
    it. *)
Record request := Request {
  req_client : nat;          (* descriptor of the accepted connection *)
  req_attached : list nat;   (* descriptors installed for the attached ones *)
  req_fork : Z;              (* what os.fork() of line 207 returns *)
  req_getpid : Z;            (* os.getpid() in the forked child *)
  req_sandbox : sandbox_env  (* what that child meets in the bootstrap *)
}.

Section ForkServer.
(** [file_sock.fileno()], and the globals of the bootstrap. *)
Variable listen_fd : nat.
Variables (bootstrap_path frames : string).

(** Lines 211-223. *)
Definition parent_branch (root_fd mem_cgroup_fd client : nat) (pid : Z)
    : block :=
  act (Close root_fd) ;;
  act (Close mem_cgroup_fd) ;;
  act (Waitpid pid) ;;
  match struct_pack_I pid with
  | Some data => act (Sendall client data) ;; act (Close client)
  | None => raise struct_error
  end.

(** Lines 227-237: the child before it enters the bootstrap. *)
Definition child_setup (root_fd mem_cgroup_fd : nat) (req : request)
    : block :=
  act (Close listen_fd) ;;
  act (Fchdir root_fd) ;;
  act (Chroot ".") ;;
  act (Close root_fd) ;;
  act (WriteFd mem_cgroup_fd (py_str_int (req_getpid req))) ;;
  act (Close mem_cgroup_fd).

(** Lines 227-241 in the child of the fork of line 207. *)
Definition fs_child_branch (root_fd mem_cgroup_fd : nat) (req : request)
    : block :=
  child_setup root_fd mem_cgroup_fd req ;;
  start_sock_container bootstrap_path frames (req_sandbox req)
    (sb_fork (req_sandbox req)) ;;
  exit_ 1.

(** Lines 265-282 and 241 in the process created by the fork of line
    264, the worker. *)
Definition fs_worker_branch (req : request) : block :=
  start_sock_container_post bootstrap_path frames (req_sandbox req) 0 ;;
  exit_ 1.

(** Lines 203-241: one pass through the loop, in the process to which the
    fork of line 207 returned [req_fork req]. *)
Definition fork_server_iteration (req : request) : block :=
  let client := req_client req in
  act (Accept client) ;;
  let fds := recv_fds 2 (req_attached req) in
  act (RecvFds client fds) ;;
  match fds with
  | [root_fd; mem_cgroup_fd] =>
      let pid := req_fork req in
      act (Fork pid) ;;
      if negb (pid =? 0) then parent_branch root_fd mem_cgroup_fd client pid
      else fs_child_branch root_fd mem_cgroup_fd req
  | _ => raise (unpack_error (length fds))
  end.

(** The loop of line 202 over the connections that arrive. *)
Fixpoint fork_server_loop (reqs : list request) : block :=
  match reqs with
  | [] => ([], Waiting)
  | req :: rest => fork_server_iteration req ;; fork_server_loop rest
  end.

Definition fork_server (reqs : list request) : block :=
  act (Stdout ("server.py: start fork server on fd: " +:+ pretty listen_fd)) ;;
  fork_server_loop reqs.
End ForkServer.

(** The number the kernel gives to a descriptor that a process creates:
    the lowest one that the process has not open. *)
Definition lowest_free (open : gset nat) : nat :=
  default 0%nat
    (List.find (λ n, bool_decide (n ∉ open)) (seq 0 (S (size open)))).

(** The descriptors a process has open after an operation.  Closing a
    descriptor that is not open leaves the set as it is (the [OSError] that
    [os.close] raises then is not part of this effect; the descriptors
    closed by the fork server are the ones it has just received).
    [bind_unix_socket] creates the socket it returns, and [open] of line
    273 the file that is read, which stays open to the end of its [with]
    block, where [start_sock_container] returns and the process ends. *)
Definition fd_effect (a : action) (open : gset nat) : gset nat :=
  match a with
  | Accept client => open ∪ {[client]}
  | RecvFds _ fds => open ∪ list_to_set fds
  | Close fd => open ∖ {[fd]}
  | BindUnix _ | ReadFile _ => open ∪ {[lowest_free open]}
  | _ => open
  end.

Definition open_after (acts : list action) (open : gset nat) : gset nat :=
  foldl (λ o a, fd_effect a o) open acts.

(** ** A sandbox-creation request with its three processes *)

Inductive proc := ForkServerProc | ChildProc | WorkerProc.

(** What is left to do in the fork server and in the child, and in the
    worker once it exists, and what has happened so far. *)
Record sys := Sys {
  sys_parent : list action;
  sys_child : list action;
  sys_worker : option (list action);
  sys_trace : list (proc * action)
}.

Section Interleaving.
Variable listen_fd : nat.
Variables (bootstrap_path frames : string).
Variables (root_fd mem_cgroup_fd : nat).
Variable req : request.

(** The moment after the fork of line 207. *)
Definition after_fork : sys :=
  Sys (fst (parent_branch root_fd mem_cgroup_fd (req_client req)
              (req_fork req)))
      (fst (fs_child_branch listen_fd bootstrap_path frames
              root_fd mem_cgroup_fd req))
      None
      [(ForkServerProc, Fork (req_fork req))].

(** One operation of the chosen process.  [os.waitpid] returns only once
    the child has ended, i.e. has nothing left to do; an exception that
    leaves [fork_server] in the child unwinds the frames the child
    inherited and ends it.  The fork of line 264, when it returns the pid
    of a new process, starts the worker.  A process that cannot move leaves
    the system as it is. *)
Definition step (who : proc) (s : sys) : sys :=
  match who with
  | ForkServerProc =>
      match sys_parent s with
      | [] => s
      | Waitpid pid :: rest =>
          match sys_child s with
          | [] => Sys rest [] (sys_worker s)
                      (sys_trace s ++ [(ForkServerProc, Waitpid pid)])
          | _ => s
          end
      | a :: rest =>
          Sys rest (sys_child s) (sys_worker s)
              (sys_trace s ++ [(ForkServerProc, a)])
      end
  | ChildProc =>
      match sys_child s with
      | [] => s
      | Fork pid :: rest =>
          Sys (sys_parent s) rest
              (if pid >? 0
               then Some (fst (fs_worker_branch bootstrap_path frames req))
               else sys_worker s)
              (sys_trace s ++ [(ChildProc, Fork pid)])
      | a :: rest =>
          Sys (sys_parent s) rest (sys_worker s)
              (sys_trace s ++ [(ChildProc, a)])
      end
  | WorkerProc =>
      match sys_worker s with
      | None | Some [] | Some (ServeForever :: _) => s
      | Some (a :: rest) =>
          Sys (sys_parent s) (sys_child s) (Some rest)
              (sys_trace s ++ [(WorkerProc, a)])
      end
  end.

(** The system after the scheduler has picked these processes in turn. *)
Definition run_schedule (sched : list proc) : sys :=
  foldl (λ s who, step who s) after_fork sched.
End Interleaving.

(** ** The request handler (lines 57-71) *)

(** [repr] of a [bytes] object, which is what an f-string inserts for it:
    [b'...'], with double quotes instead when the bytes hold a single quote
    and no double quote; the quote character and the backslash are escaped,
    tab, newline and carriage return are written as two characters, and any
    other byte outside the printable ASCII range in hexadecimal. *)
Definition byte_code (c : ascii) : Z := Z.of_nat (nat_of_ascii c).

Fixpoint has_byte (c : ascii) (s : string) : bool :=
  match s with
  | EmptyString => false
  | String d s' => Ascii.eqb c d || has_byte c s'
  end.

Definition dquote : ascii := "034"%char.

Definition repr_quote (data : string) : ascii :=
  if has_byte "'"%char data && negb (has_byte dquote data)
  then dquote else "'"%char.

Definition hex_digit (n : Z) : ascii :=
  ascii_of_nat (Z.to_nat (if n <? 10 then 48 + n else 87 + n)).

Definition needs_no_escape (quote c : ascii) : bool :=
  negb (Ascii.eqb c quote) && negb (Ascii.eqb c "\"%char)
  && (32 <=? byte_code c) && (byte_code c <? 127).

Definition escape_byte (quote c : ascii) : string :=
  if Ascii.eqb c quote || Ascii.eqb c "\"%char then String "\" (String c "")
  else if byte_code c =? 9 then "\t"
  else if byte_code c =? 10 then "\n"
  else if byte_code c =? 13 then "\r"
  else if (byte_code c <? 32) || (127 <=? byte_code c) then
    String "\" (String "x" (String (hex_digit (byte_code c / 16))
                             (String (hex_digit (byte_code c mod 16)) "")))
  else String c "".

Fixpoint escape_bytes (quote : ascii) (data : string) : string :=
  match data with
  | EmptyString => ""
  | String c rest => escape_byte quote c +:+ escape_bytes quote rest
  end.

Definition bytes_repr (data : string) : string :=
  let quote := repr_quote data in
  String "b" (String quote (escape_bytes quote data +:+ String quote "")).

(** [needle in hay] for strings. *)
Fixpoint is_infix (needle hay : string) : bool :=
  String.prefix needle hay ||
  match hay with
  | EmptyString => false
  | String _ rest => is_infix needle rest
  end.

(** The response under construction: [set_status] and [write]. *)
Record response := Response { status : Z; body : string }.

Definition set_status (code : Z) (r : response) : response :=
  Response code (body r).
Definition write (chunk : string) (r : response) : response :=
  Response (status r) (body r +:+ chunk).

Section RequestHandler.
(** Python objects, the empty dict, [json.loads] (whose result may be
    [None]), [json.dumps], the user's handler [handler_module.f], and the
    stack entries of a traceback taken at line 71. *)
Variable value : Type.
Variable empty_dict : value.
Variable json_loads : string -> py_exc + option value.
Variable json_dumps : value -> py_exc + string.
Variable f : value -> py_exc + value.
Variable frames : string.

(** Lines 67-68. *)
Definition invoke_handler (event : option value) (r : response)
    : py_exc + response :=
  match (match event with Some ev => f ev | None => f empty_dict end) with
  | inl err => inl err
  | inr result =>
      match json_dumps result with
      | inl err => inl err
      | inr text => inr (write text r)
      end
  end.

(** Lines 58-71: the response, and the exception that leaves the method
    if neither handler catches it.  A request starts with status 200 and
    nothing written. *)
Definition handle_request (data : string) : response * option py_exc :=
  let r := Response 200 "" in
  let outer (res : py_exc + response) : response * option py_exc :=
    match res with
    | inr r' => (r', None)
    | inl err =>
        if exc_is_Exception err then
          (write (format_exc frames err) (set_status 500 r), None)
        else (r, Some err)
    end in
  match (match data with
         | EmptyString => inr None
         | _ => json_loads data
         end) with
  | inr event => outer (invoke_handler event r)
  | inl err =>
      if exc_is_Exception err then
        (write ("Bad request data: "
                  +:+ String dquote (bytes_repr data +:+ String dquote ""))
               (set_status 400 r), None)
      else outer (inl err)
  end.
End RequestHandler.

(** ** The command line (lines 296-302)

    [parse_args] as Python 3.10's [argparse] runs it for this parser: the
    argument strings are first classified, which is where an ambiguous
    abbreviation is refused; they are then consumed from left to right, each
    option running its action as it is met; strings that nothing consumed
    are refused at the end. *)

Record args := Args {
  args_env : string;
  args_bootstrap : option string;
  args_cache : bool;
  args_cgroup_count : Z;
  args_enable_seccomp : bool
}.

(** The defaults of the five [add_argument] calls. *)
Definition default_args : args := Args "sock" None false 0 true.

Inductive option_action :=
| ActHelp | ActEnv | ActBootstrap | ActCache | ActCgroupCount
| ActEnableSeccomp.

Definition option_strings : list (string * option_action) :=
  [("-h", ActHelp); ("--help", ActHelp); ("--env", ActEnv);
   ("--bootstrap", ActBootstrap); ("--cache", ActCache);
   ("--cgroup-count", ActCgroupCount);
   ("--enable-seccomp", ActEnableSeccomp)].

(** Options whose action is [store] take one argument; [store_true] and
    [help] take none. *)
Definition takes_value (a : option_action) : bool :=
  match a with
  | ActEnv | ActBootstrap | ActCgroupCount => true
  | ActHelp | ActCache | ActEnableSeccomp => false
  end.

Definition lookup_option (s : string) : option option_action :=
  snd <$> List.find (λ p, String.eqb (fst p) s) option_strings.

(** [s.split('=', 1)] when [s] holds an equals sign. *)
Fixpoint split_eq (s : string) : option (string * string) :=
  match s with
  | EmptyString => None
  | String c rest =>
      if Ascii.eqb c "="%char then Some ("", rest)
      else match split_eq rest with
           | Some (l, r) => Some (String c l, r)
           | None => None
           end
  end.

Definition is_digit (c : ascii) : bool :=
  (48 <=? byte_code c) && (byte_code c <=? 57).

Fixpoint all_digits (s : string) : bool :=
  match s with
  | EmptyString => true
  | String c rest => is_digit c && all_digits rest
  end.

Fixpoint digits_dot_digits (s : string) : bool :=
  match s with
  | EmptyString => false
  | String c rest =>
      if Ascii.eqb c "."%char then
        negb (String.eqb rest "") && all_digits rest
      else is_digit c && digits_dot_digits rest
  end.

(** The matcher of negative numbers, [^-\d+$|^-\d*\.\d+$]. *)
Definition looks_negative_number (s : string) : bool :=
  match s with
  | String "-" rest =>
      (negb (String.eqb rest "") && all_digits rest) || digits_dot_digits rest
  | _ => false
  end.

(** A classified argument string. *)
Inductive token :=
| TArg (s : string)          (* pattern [A] *)
| TSep                       (* the first [--], pattern [-] *)
| TOpt (a : option option_action) (option_string : string)
       (explicit_arg : option string).   (* pattern [O] *)

(** [_get_option_tuples]: the options an abbreviation may stand for. *)
Definition get_option_tuples (s : string)
    : list (option_action * string * option string) :=
  match s with
  | String "-" (String "-" _) =>
      let '(option_prefix, explicit_arg) :=
        match split_eq s with
        | Some (l, r) => (l, Some r)
        | None => (s, None)
        end in
      omap (λ p, if String.prefix option_prefix (fst p)
                 then Some (snd p, fst p, explicit_arg) else None)
           option_strings
  | String "-" (String c rest) =>
      let short_option_prefix := String "-" (String c "") in
      omap (λ p, if String.eqb (fst p) short_option_prefix
                 then Some (snd p, fst p, Some rest)
                 else if String.prefix s (fst p)
                 then Some (snd p, fst p, None) else None)
           option_strings
  | _ => []
  end.

(** [_parse_optional]; [None] is the error of an ambiguous option. *)
Definition parse_optional (s : string) : option token :=
  match s with
  | String "-" rest =>
      match lookup_option s with
      | Some a => Some (TOpt (Some a) s None)
      | None =>
          if String.eqb rest "" then Some (TArg s)
          else
            match (match split_eq s with
                   | Some (l, r) =>
                       (λ a, TOpt (Some a) l (Some r)) <$> lookup_option l
                   | None => None
                   end) with
            | Some t => Some t
            | None =>
                match get_option_tuples s with
                | [(a, option_string, explicit_arg)] =>
                    Some (TOpt (Some a) option_string explicit_arg)
                | _ :: _ :: _ => None
                | [] =>
                    if looks_negative_number s then Some (TArg s)
                    else if has_byte " "%char s then Some (TArg s)
                    else Some (TOpt None s None)
                end
            end
      end
  | _ => Some (TArg s)
  end.

(** The first pass over the argument strings. *)
Fixpoint classify (argv : list string) : option (list token) :=
  match argv with
  | [] => Some []
  | s :: rest =>
      if String.eqb s "--" then Some (TSep :: map TArg rest)
      else
        match parse_optional s, classify rest with
        | Some t, Some ts => Some (t :: ts)
        | _, _ => None
        end
  end.

(** How [parse_args] ends. *)
Inductive parse_result :=
| Parsed (ns : args)
| ParserExit (code : Z).    (* help: 0, an error: 2 *)

Fixpoint only_h (s : string) : bool :=
  match s with
  | EmptyString => true
  | String c rest => Ascii.eqb c "h"%char && only_h rest
  end.

Section ParseArgs.
(** The builtin [int] applied to a string; [None] when it raises. *)
Variable py_int : string -> option Z.

(** [take_action] for the options with an argument: conversion by [type],
    the check against [choices], and [setattr]. *)
Definition store (a : option_action) (v : string) (ns : args) : option args :=
  match a with
  | ActEnv =>
      if String.eqb v "sock" || String.eqb v "docker"
      then Some (Args v (args_bootstrap ns) (args_cache ns)
                      (args_cgroup_count ns) (args_enable_seccomp ns))
      else None
  | ActBootstrap =>
      Some (Args (args_env ns) (Some v) (args_cache ns)
                 (args_cgroup_count ns) (args_enable_seccomp ns))
  | ActCgroupCount =>
      n ← py_int v;
      Some (Args (args_env ns) (args_bootstrap ns) (args_cache ns) n
                 (args_enable_seccomp ns))
  | _ => None
  end.

(** [take_action] for the two [store_true] options. *)
Definition store_true (a : option_action) (ns : args) : args :=
  match a with
  | ActCache =>
      Args (args_env ns) (args_bootstrap ns) true (args_cgroup_count ns)
           (args_enable_seccomp ns)
  | ActEnableSeccomp =>
      Args (args_env ns) (args_bootstrap ns) (args_cache ns)
           (args_cgroup_count ns) true
  | _ => ns
  end.

(** The second pass.  [extras] tells whether some string was left
    unconsumed. *)
Fixpoint consume (toks : list token) (ns : args) (extras : bool)
    : parse_result :=
  match toks with
  | [] => if extras then ParserExit 2 else Parsed ns
  | TArg _ :: rest | TSep :: rest | TOpt None _ _ :: rest =>
      consume rest ns true
  | TOpt (Some a) option_string explicit_arg :: rest =>
      if takes_value a then
        match explicit_arg, rest with
        | Some v, _ =>
            match store a v ns with
            | Some ns' => consume rest ns' extras
            | None => ParserExit 2
            end
        | None, TArg v :: rest' =>
            match store a v ns with
            | Some ns' => consume rest' ns' extras
            | None => ParserExit 2
            end
        | None, _ => ParserExit 2
        end
      else
        match explicit_arg with
        | Some e =>
            if String.eqb option_string "-h" && negb (String.eqb e "")
               && only_h e
            then ParserExit 0 else ParserExit 2
        | None =>
            match a with
            | ActHelp => ParserExit 0
            | _ => consume rest (store_true a ns) extras
            end
        end
  end.

Definition parse_args (argv : list string) : parse_result :=
  match classify argv with
  | None => ParserExit 2
  | Some toks => consume toks default_args false
  end.
End ParseArgs.

(** ** The entry point, [main] (lines 287-348) *)

(** What the [with] statement of lines 330-332 meets for a descriptor.
    The text handed to [file.write] stays in the buffer of the file object
    and reaches the descriptor when the block is left and the file closed,
    after the [print] of line 332; the descriptor is closed even if that
    write fails. *)
Inductive fdopen_outcome :=
| FdWritten                      (* open for writing: the pid is written *)
| FdopenRaises (err : py_exc)    (* os.fdopen raises: not an open descriptor *)
| FdWriteRaises (err : py_exc).  (* the write at the end of the block raises *)

(** What the environment answers to [main] in sock mode. *)
Record main_env := MainEnv {
  m_seccomp : Z;             (* return value of ol.enable_seccomp() *)
  m_getpid : Z;              (* os.getpid() *)
  m_frames : string;         (* stack entries of a traceback at line 281 *)
  m_sandbox : sandbox_env;
  m_fdopen : nat -> fdopen_outcome   (* the descriptors given for cgroups *)
}.

(** Lines 329-332: one round of the loop over the cgroup descriptors,
    [rest] being the rounds that follow. *)
Definition join_cgroup (fdopen : nat -> fdopen_outcome) (pid : string)
    (i : nat) (rest : block) : block :=
  let fd_id := (3 + i)%nat in
  let joined :=
    act (Stdout ("server.py: joined cgroup, close FD " +:+ pretty fd_id)) in
  match fdopen fd_id with
  | FdopenRaises err => raise err
  | FdWritten =>
      act (WriteFd fd_id pid) ;; joined ;; act (Close fd_id) ;; rest
  | FdWriteRaises err => joined ;; act (Close fd_id) ;; raise err
  end.

(** Lines 327-332: the cgroup files passed as descriptors 3, 4, ... *)
Definition join_cgroups (fdopen : nat -> fdopen_outcome) (pid : string)
    (cgroup_fds : Z) : block :=
  foldr (join_cgroup fdopen pid) skip (seq 0 (Z.to_nat cgroup_fds)).

(** Falling off the end of [main] ends the process with status 0. *)
Definition end_of_main : block := ([], Exits 0).

(** Lines 306-334, in the process in which the fork of line 264 returns
    [pid]. *)
Definition main_sock (a : args) (env : main_env) (pid : Z) : block :=
  act (Stdout "Running in SOCK environment") ;;
  (if args_enable_seccomp a then
     let return_code := m_seccomp env in
     act (EnableSeccomp return_code) ;;
     (if return_code >=? 0 then skip else raise AssertionError) ;;
     act (Stdout "seccomp enabled")
   else skip) ;;
  match args_bootstrap a with
  | None | Some EmptyString =>
      act (Stdout "Error: --bootstrap is required in sock mode.") ;;
      exit_ 1
  | Some bootstrap_path =>
      join_cgroups (m_fdopen env) (py_str_int (m_getpid env))
        (args_cgroup_count a) ;;
      start_sock_container bootstrap_path (m_frames env) (m_sandbox env) pid ;;
      end_of_main
  end.

(** Lines 273-282 and the end of [main] in the worker that the fork of
    line 264 creates when [start_sock_container] was called by [main]. *)
Definition main_worker (bootstrap_path : string) (env : main_env) : block :=
  start_sock_container_post bootstrap_path (m_frames env) (m_sandbox env) 0 ;;
  end_of_main.

(** What [main] turns into. *)
Inductive main_outcome :=
| MainExit (code : Z)                        (* parse_args ended the process *)
| MainSock (b : block)
| MainDocker (out : list out_event) (cache : bool)
    (* cache_loop() if [cache], web_server_docker() otherwise *)
| MainUnknown (b : block).                   (* lines 346-348 *)

Definition main (py_int : string -> option Z) (argv : list string)
    (env : main_env) : main_outcome :=
  match parse_args py_int argv with
  | ParserExit code => MainExit code
  | Parsed a =>
      if String.eqb (args_env a) "sock" then
        MainSock (main_sock a env (sb_fork (m_sandbox env)))
      else if String.eqb (args_env a) "docker" then
        MainDocker [Reopened; Printed "Running in Docker environment..."]
                   (args_cache a)
      else
        MainUnknown (act (Stdout ("Unknown environment: " +:+ args_env a)) ;;
                     exit_ 1)
  end.

(** ** The WSGI entry, [path_wrapper] (lines 81-98) *)

(** [s.split(sep)] for a separator of one character: one part more than
    there are separators, empty parts included. *)
Fixpoint split_on (sep : ascii) (cur s : string) : list string :=
  match s with
  | EmptyString => [cur]
  | String c s' =>
      if Ascii.eqb c sep then cur :: split_on sep "" s'
      else split_on sep (cur +:+ String c "") s'
  end.

Definition py_split_sep (sep : ascii) (s : string) : list string :=
  split_on sep "" s.

(** [sep.join(parts)]. *)
Fixpoint py_join (sep : string) (parts : list string) : string :=
  match parts with
  | [] => ""
  | p :: rest =>
      match rest with
      | [] => p
      | _ => p +:+ sep +:+ py_join sep rest
      end
  end.

Section PathWrapper.
(** What the WSGI application returns, and the application itself,
    [handler_module.app(environ, start_response)]. *)
Variable wsgi_result : Type.
Variable app : gmap string string -> wsgi_result.

(** Lines 82-95.  [environ] is a dict that the wrapper updates in place:
    the result is the dict as the wrapper leaves it, with either the
    exception that leaves the wrapper or what the application returned. *)
Definition path_wrapper (environ : gmap string string)
    : gmap string string * (py_exc + wsgi_result) :=
  let path := default "" (environ !! "PATH_INFO") in
  let parts := py_split_sep "/" path in
  let environ := <["PATH_INFO" := "/" +:+ py_join "/" (drop 3 parts)]> environ in
  match parts !! 2%nat with
  | None => (environ, inl IndexError)
  | Some name =>
      let environ := <["SCRIPT_NAME" := "/run/" +:+ name]> environ in
      (environ, inr (app environ))
  end.
End PathWrapper.

(** ** The Docker web server, [web_server_docker] (lines 107-127) *)

(** The names that the top-level statements of the file bind when it is
    loaded: the imported modules, the constants and the functions. *)
Definition module_level_names : list string :=
  ["os"; "sys"; "json"; "argparse"; "importlib"; "traceback"; "socket";
   "struct"; "tornado";
   "HOST_DIR"; "PKGS_DIR"; "HANDLER_DIR"; "FS_PATH"; "SOCK_PATH";
   "STDOUT_PATH"; "STDERR_PATH"; "SERVER_PIPE_PATH"; "PROCESSES_DEFAULT";
   "flush"; "redirect"; "create_tornado_web_server"; "web_server_docker";
   "cache_loop"; "web_server"; "fork_server"; "start_sock_container";
   "main"].

(** Values of global names, as far as their truth value goes. *)
Inductive py_value :=
| VBool (b : bool)
| VModule (m : py_module)
| VObject.          (* a module, function or constant bound at load time *)

Definition truthy (v : py_value) : bool :=
  match v with
  | VBool b => b
  | VModule _ | VObject => true
  end.

(** Reading a global name: the names bound since the file was loaded
    ([globals]) come first, then the ones bound at load time; [None] is
    [NameError]. *)
Definition lookup_global (name : string) (globals : gmap string py_value)
    : option py_value :=
  match globals !! name with
  | Some v => Some v
  | None =>
      if existsb (String.eqb name) module_level_names then Some VObject
      else None
  end.

Definition NameError (name : string) : py_exc :=
  PyExc "NameError" ("name '" +:+ name +:+ "' is not defined") true.

(** What a web server does to get ready. *)
Inductive server_op :=
| ImportHandler                          (* import f *)
| BindSocket (path : string)             (* bind_unix_socket(path) *)
| AddSocket                              (* server.add_socket(socket) *)
| WritePipe (path text : string)         (* open(path, 'w').write(text) *)
| StartIOLoop.                           (* IOLoop.instance().start() *)

(** What the environment answers to a web server. *)
Record server_env := ServerEnv {
  sv_import : py_exc + py_module;   (* import f *)
  sv_bind : option py_exc;          (* bind_unix_socket raising, if it does *)
  sv_pipe : option py_exc           (* opening the pipe raising, if it does *)
}.

(** Lines 108-127: the names bound since load time as the call leaves
    them, what was done, and how the call is left.  The event loop does not
    return. *)
Definition web_server_docker (env : server_env)
    (globals : gmap string py_value)
    : gmap string py_value * list server_op * flow :=
  match lookup_global "initialized" globals with
  | None => (globals, [], Raises (NameError "initialized"))
  | Some initialized =>
      if truthy initialized then (globals, [], Continues)
      else
        match sv_import env with
        | inl err => (globals, [ImportHandler], Raises err)
        | inr f =>
            let globals :=
              <["initialized" := VBool true]> (<["f" := VModule f]> globals) in
            match sv_bind env with
            | Some err =>
                (globals, [ImportHandler; BindSocket SOCK_PATH], Raises err)
            | None =>
                match sv_pipe env with
                | Some err =>
                    (globals,
                     [ImportHandler; BindSocket SOCK_PATH; AddSocket],
                     Raises err)
                | None =>
                    (globals,
                     [ImportHandler; BindSocket SOCK_PATH; AddSocket;
                      WritePipe SERVER_PIPE_PATH "ready"; StartIOLoop],
                     Never)
                end
            end
        end
  end.

(** The names that the imports of the cache loop have bound. *)
Definition globals_of (st : cl_state) : gmap string py_value :=
  VModule <$> cl_globals st.

(** Lines 336-344: [main] in Docker mode, for the value of [--cache].  With
    the flag the process enters the cache loop, which calls the web server
    if it is ever left; without it the web server is called at once. *)
Definition main_docker (env : server_env)
    (import_module : string -> py_exc + py_module)
    (events : list cl_event) (out : list out_event) (cache : bool)
    : list server_op * flow :=
  if cache then
    match cache_loop import_module events out with
    | Serving st =>
        if rebound "web_server_docker" st then ([], Raises not_callable)
        else let '(_, ops, fl) := web_server_docker env (globals_of st) in
             (ops, fl)
    | Listening _ => ([], Waiting)
    | Crashed err _ => ([], Raises err)
    end
  else
    let '(_, ops, fl) := web_server_docker env ∅ in (ops, fl).

(** * Properties *)

(** ** Vocabulary of the statements *)

(** A line made of whitespace only (the empty line included). *)
Fixpoint all_space (s : string) : bool :=
  match s with
  | EmptyString => true
  | String c rest => is_space c && all_space rest
  end.

(** What the import step prints for a list of modules: one line per
    attempt, followed by the failure if there is one. *)
Definition import_log (import_module : string -> py_exc + py_module)
    (mods : list string) : list out_event :=
  flat_map (λ mod_,
              Printed ("importing: " +:+ mod_) ::
              match import_module mod_ with
              | inr _ => []
              | inl err =>
                  [Printed ("failed to import " +:+ mod_ +:+ ": "
                            +:+ exc_msg err)]
              end) mods.

(** A request as the fork server expects it, met by a process whose open
    descriptors are [open]: two descriptors are attached, the kernel
    numbers the new descriptors apart from the open ones, and the fork
    returns the pid of the child. *)
Definition sandbox_request (open : gset nat) (req : request) : Prop :=
  length (req_attached req) = 2%nat /\
  (0 < req_fork req < 2 ^ 32) /\
  (req_client req ∉ open) /\
  Forall (λ fd, fd ∉ open) (req_attached req).

Definition is_exec (a : action) : bool :=
  match a with Exec _ => true | _ => false end.

(** The operations of one process in a trace, in order. *)
Definition actions_of (who : proc) (tr : list (proc * action)) : list action :=
  omap (λ e, match fst e, who with
             | ForkServerProc, ForkServerProc
             | ChildProc, ChildProc
             | WorkerProc, WorkerProc => Some (snd e)
             | _, _ => None
             end) tr.

(** Kinds of operations the ordering statements speak of. *)
Definition is_waitpid (a : action) : bool :=
  match a with Waitpid _ => true | _ => false end.
Definition is_sendall (a : action) : bool :=
  match a with Sendall _ _ => true | _ => false end.
Definition is_bind (a : action) : bool :=
  match a with BindUnix path => String.eqb path SOCK_PATH | _ => false end.
Definition is_fork_or_exit0 (a : action) : bool :=
  match a with Fork _ => true | Exit code => code =? 0 | _ => false end.

(** In [l], every operation of kind [q] comes after one of kind [p];
    [seen] tells whether one of kind [p] has already gone by. *)
Fixpoint guarded (p q : action -> bool) (seen : bool) (l : list action)
    : bool :=
  match l with
  | [] => true
  | a :: l' => (negb (q a) || seen) && guarded p q (seen || p a) l'
  end.

(** No byte of [data] is escaped in a [repr] that uses [quote]. *)
Fixpoint all_plain (quote : ascii) (data : string) : bool :=
  match data with
  | EmptyString => true
  | String c rest => needs_no_escape quote c && all_plain quote rest
  end.

(** What holds of every state that the processes of one request can reach,
    [parent_program] and [child_program] being what the fork server and the
    child do after the fork: each has done a prefix of its program; once
    [waitpid] has returned, the child has nothing left to do; and every
    reply in the trace comes after all the operations of the child. *)
Definition reachable_inv (pid : Z) (client : nat)
    (parent_program child_program : list action) (s : sys) : Prop :=
  actions_of ForkServerProc (sys_trace s) ++ sys_parent s
  = Fork pid :: parent_program /\
  actions_of ChildProc (sys_trace s) ++ sys_child s = child_program /\
  (forall pid', In (Waitpid pid') (actions_of ForkServerProc (sys_trace s)) ->
                sys_child s = []) /\
  (forall pre data post,
      sys_trace s = pre ++ (ForkServerProc, Sendall client data) :: post ->
      actions_of ChildProc pre = child_program).

(** The names that lines 139-171 look up among the globals and the
    builtins, those read by [flush()] and [redirect()] included, and that
    line 161 can bind to something they were not. *)
Definition loop_names : list string :=
  ["print"; "flush"; "redirect"; "globals"; "Exception"; "open"; "FS_PATH";
   "STDOUT_PATH"; "STDERR_PATH"].

(** None of those names has been bound to a module. *)
Definition names_intact (st : cl_state) : Prop :=
  forall name, In name loop_names -> rebound name st = false.

(** No module of the list that can be imported bears one of those names. *)
Definition harmless (import_module : string -> py_exc + py_module)
    (mods : list string) : Prop :=
  forall m md, In m mods -> import_module m = inr md -> ~ In m loop_names.

(** The module names of a request: all the tokens of its line but the
    last. *)
Definition request_modules (ev : cl_event) : list string :=
  removelast (py_split (ev_line ev)).

(** A relation between the state before and the state after, that holds
    of every run of a statement. *)
Definition respects (R : cl_state -> cl_state -> Prop) (p : cl_step) : Prop :=
  forall st e st', p st = (e, st') -> R st st'.

(** The state in which a run of the cache loop ends. *)
Definition result_state (r : cl_result) : cl_state :=
  match r with
  | Serving st | Listening st | Crashed _ st => st
  end.

(** ** Sample environments for the concrete runs *)

(** An interpreter in which [missing_b] cannot be imported and every other
    module can. *)
Definition sample_import (m : string) : py_exc + py_module :=
  if String.eqb m "missing_b" then
    inl (PyExc "ModuleNotFoundError" "No module named 'missing_b'" true)
  else inr (Module m).

(** An interpreter in which importing [exits_b] runs [sys.exit(3)], and
    every other module can be imported. *)
Definition exiting_import (m : string) : py_exc + py_module :=
  if String.eqb m "exits_b" then inl (PyExc "SystemExit" "3" false)
  else inr (Module m).

(** A bootstrap script that starts a fork server, in a sandbox whose
    setup succeeds; the worker gets pid 4243. *)
Definition sample_sandbox : sandbox_env :=
  SandboxEnv 0 None 4243 (inr "fork_server()") ExecServes.

(** A request with two descriptors; the child gets pid 4242. *)
Definition sample_request : request :=
  Request 5 [6; 7]%nat 4242 4242 sample_sandbox.

(** A connection on which a single descriptor arrives, and a complete
    request that follows it. *)
Definition short_request : request :=
  Request 5 [6]%nat 4242 4242 sample_sandbox.
Definition second_request : request :=
  Request 8 [9; 10]%nat 4250 4250 sample_sandbox.

(** A request in whose child [ol.unshare()] fails. *)
Definition unshare_fails : request :=
  Request 5 [6; 7]%nat 4242 4242
    (SandboxEnv (-1) None 4243 (inr "fork_server()") ExecServes).

(** A bootstrap script that raises [ModuleNotFoundError], and one that
    calls [sys.exit(3)]. *)
Definition failing_script : sandbox_env :=
  SandboxEnv 0 None 4243 (inr "import nothing")
    (ExecRaises (PyExc "ModuleNotFoundError" "No module named 'nothing'" true)).
Definition exiting_script : sandbox_env :=
  SandboxEnv 0 None 4243 (inr "import sys; sys.exit(3)")
    (ExecRaises (PyExc "SystemExit" "3" false)).

(** A schedule in which the fork server runs first and finds itself
    blocked in [waitpid], the child then runs to its end, the fork server
    replies, and the worker starts. *)
Definition sample_schedule : list proc :=
  replicate 4 ForkServerProc ++ replicate 10 ChildProc
  ++ replicate 3 ForkServerProc ++ replicate 2 WorkerProc.

(** [json.loads] on the two bodies given to it below, neither of which is
    JSON: an object that is not closed, and plain words.  The handler
    echoes its event. *)
Definition sample_loads (data : string) : py_exc + option string :=
  inl (PyExc "json.decoder.JSONDecodeError"
             (if String.prefix "{" data
              then "Expecting property name enclosed in double quotes"
              else "Expecting value") true).
Definition sample_dumps (v : string) : py_exc + string := inr v.
Definition sample_f (event : string) : py_exc + string := inr event.

(** [json.loads] on bodies that are JSON numbers, the number being
    represented by its text, and a handler that divides by zero. *)
Definition lenient_loads (data : string) : py_exc + option string :=
  inr (Some data).
Definition failing_f (event : string) : py_exc + string :=
  inl (PyExc "ZeroDivisionError" "division by zero" true).

(** A handler that calls [sys.exit(3)]. *)
Definition exiting_f (event : string) : py_exc + string :=
  inl (PyExc "SystemExit" "3" false).

(** [int] on the decimal numerals used below. *)
Definition sample_int (s : string) : option Z :=
  if String.eqb s "2" then Some 2 else None.

(** In sock mode: [ol.enable_seccomp()] returns 0, the pid is 77, and
    every descriptor given for a cgroup can be written. *)
Definition sample_main_env : main_env :=
  MainEnv 0 77 "" sample_sandbox (λ _, FdWritten).

(** ** Vocabulary of the further properties *)

(** A token of a control line: not empty, no whitespace in it. *)
Fixpoint no_space (s : string) : bool :=
  match s with
  | EmptyString => true
  | String c rest => negb (is_space c) && no_space rest
  end.

Definition is_token (s : string) : bool :=
  negb (String.eqb s "") && no_space s.

(** A flow with which the process is over, or never comes back. *)
Definition ends_process (fl : flow) : Prop :=
  match fl with
  | Exits _ | Raises _ | Never => True
  | Continues | Waiting => False
  end.

(** The bytes the fork server answers with for a request. *)
Definition reply_of (req : request) : list Z :=
  default [] (struct_pack_I (req_fork req)).

Definition is_accept_or_reply (a : action) : bool :=
  match a with Accept _ | Sendall _ _ => true | _ => false end.


(** The operations by which a sandbox is set up and its code started. *)
Definition is_container_op (a : action) : bool :=
  match a with
  | Unshare _ | BindUnix _ | Fork _ | ReadFile _ | Exec _ => true
  | _ => false
  end.

(** How many times a character occurs in a string. *)
Fixpoint count_char (c : ascii) (s : string) : nat :=
  match s with
  | EmptyString => 0
  | String d rest => (if Ascii.eqb d c then 1 else 0) + count_char c rest
  end.

(** ** The cache loop *)

Lemma split_from_all_space s :
  all_space s = true -> split_from "" s = [].
Proof.
  induction s as [|c s IH]; simpl; [done|].
  intros [Hc Hs]%andb_prop. rewrite Hc. auto.
Qed.

Lemma append_nonempty (cur : string) (c : ascii) :
  cur +:+ String c "" <> "".
Proof. destruct cur; discriminate. Qed.

Lemma split_from_nonempty cur s :
  cur <> "" -> split_from cur s <> [].
Proof.
  revert cur. induction s as [|c s IH]; intros cur Hcur; simpl.
  - destruct cur; [done | discriminate].
  - destruct (is_space c).
    + destruct cur; [done | discriminate].
    + apply IH, append_nonempty.
Qed.

Lemma split_from_nil s :
  split_from "" s = [] -> all_space s = true.
Proof.
  induction s as [|c s IH]; simpl; [done|].
  destruct (is_space c) eqn:Hc; simpl; [exact IH|].
  intros H. exfalso. revert H. apply split_from_nonempty. discriminate.
Qed.

Lemma py_split_nil_iff line :
  py_split line = [] <-> all_space line = true.
Proof. split; [apply split_from_nil | apply split_from_all_space]. Qed.

Lemma parse_control_tokens line mods signal :
  py_split line = mods ++ [signal] ->
  parse_control line = inr (mods, signal).
Proof.
  unfold parse_control. intros ->.
  rewrite removelast_last, last_last.
  destruct mods; reflexivity.
Qed.

Lemma parse_control_error line err :
  parse_control line = inl err -> err = IndexError /\ py_split line = [].
Proof.
  unfold parse_control. destruct (py_split line); [|discriminate].
  intros [= <-]. done.
Qed.

(** *** Relations that every statement of the loop respects *)

Section Respects.
Variable R : cl_state -> cl_state -> Prop.
Hypothesis R_refl : forall st, R st st.
Hypothesis R_trans : forall a b c, R a b -> R b c -> R a c.

Lemma respects_pass : respects R cl_pass.
Proof. intros st e st' [= _ <-]. apply R_refl. Qed.

Lemma respects_do f : (forall st, R st (f st)) -> respects R (cl_do f).
Proof. intros Hf st e st' [= _ <-]. apply Hf. Qed.

Lemma respects_seq p q :
  respects R p -> respects R q -> respects R (cl_seq p q).
Proof.
  intros Hp Hq st e st'. unfold cl_seq.
  destruct (p st) as [[err|] s] eqn:Hps.
  - intros [= _ <-]. eauto.
  - intros Hqs. eapply R_trans; eauto.
Qed.

Lemma respects_call name p : respects R p -> respects R (call name p).
Proof.
  intros Hp st e st'. unfold call. destruct (rebound name st).
  - intros [= _ <-]. apply R_refl.
  - apply Hp.
Qed.

Lemma respects_try body handler :
  respects R body -> (forall err, respects R (handler err)) ->
  respects R (try_except body handler).
Proof.
  intros Hb Hh st e st'. unfold try_except.
  destruct (body st) as [[err|] s] eqn:Hbs.
  - destruct (rebound "Exception" s); [intros [= _ <-]; eauto|].
    destruct (exc_is_Exception err); [|intros [= _ <-]; eauto].
    intros Hhs. eapply R_trans; [eapply Hb|eapply Hh]; eauto.
  - intros [= _ <-]. eauto.
Qed.

Lemma respects_guard name err :
  respects R (fun st => if rebound name st then (Some err, st) else (None, st)).
Proof.
  intros st e st'. destruct (rebound name st); intros [= _ <-]; apply R_refl.
Qed.

Variable import_module : string -> py_exc + py_module.
Hypothesis R_log : forall ev st, ev <> Printed "RESET" -> R st (cl_log ev st).
Hypothesis R_global : forall m md st,
  import_module m = inr md -> R st (set_global m md st).

Lemma respects_print text : text <> "RESET" -> respects R (print text).
Proof.
  intros Ht. apply respects_call, respects_do. intros st.
  apply R_log. congruence.
Qed.

Lemma respects_flush : respects R flush.
Proof. apply respects_call, respects_pass. Qed.

Lemma respects_redirect : respects R redirect.
Proof.
  intros st e st'. unfold redirect.
  repeat case_match; intros [= _ <-]; by apply R_log.
Qed.

Lemma respects_import_modules mods :
  respects R (import_modules import_module mods).
Proof.
  induction mods as [|m mods IH]; [apply respects_pass|].
  cbn [import_modules].
  apply respects_seq; [by apply respects_print|].
  apply respects_seq; [|exact IH].
  apply respects_try.
  - intros st e st'. unfold bind_module.
    destruct (import_module m) as [err|md] eqn:Hm.
    + intros [= _ <-]. apply R_refl.
    + apply respects_call, respects_do. intros s. by apply R_global.
  - intros err. by apply respects_print.
Qed.

Lemma respects_child_branch mods signal :
  respects R (child_branch import_module mods signal).
Proof.
  unfold child_branch.
  apply respects_seq; [apply respects_call, respects_redirect|].
  apply respects_seq; [apply respects_import_modules|].
  apply respects_seq; [by apply respects_print|apply respects_flush].
Qed.

Hypothesis R_reset : forall st, cl_r st = 0 -> R st (cl_print "RESET" st).

Lemma respects_before_listen : respects R before_listen.
Proof.
  unfold before_listen. apply respects_seq.
  - intros st e st'. destruct (Z.eqb_spec (cl_r st) 0) as [Hr|Hr].
    + unfold cl_seq, print, flush, call, cl_do, cl_pass.
      repeat case_match; simplify_eq; intros [= _ <-];
        first [apply R_refl | by apply R_reset].
    + intros [= _ <-]. apply R_refl.
  - apply respects_seq; [by apply respects_print|].
    apply respects_seq; [apply respects_flush|apply respects_guard].
Qed.

Hypothesis R_signal : forall s st, R st (set_signal s st).
Hypothesis R_count : forall st, R st (incr_count st).

Lemma respects_loop_body ev : respects R (loop_body import_module ev).
Proof.
  unfold loop_body.
  apply respects_seq; [apply respects_before_listen|].
  apply respects_seq; [apply respects_flush|].
  intros st e st'.
  destruct (parse_control (ev_line ev)) as [err|[mods signal]].
  { intros [= _ <-]. apply R_refl. }
  revert st e st'.
  apply respects_seq; [by apply respects_do|].
  apply respects_seq.
  { destruct (ev_fork ev =? 0);
      [apply respects_child_branch|apply respects_pass]. }
  apply respects_seq; [by apply respects_print|].
  apply respects_seq; [apply respects_flush|by apply respects_do].
Qed.

Lemma respects_cache_loop_from events : forall st,
  R st (result_state (cache_loop_from import_module events st)).
Proof.
  assert (Hserve : respects R (cl_seq (print "SERVING HANDLERS") flush)).
  { apply respects_seq; [by apply respects_print|apply respects_flush]. }
  induction events as [|ev rest IH]; intros st; simpl.
  - destruct (loop_cond st).
    + destruct (before_listen st) as [[err|] s] eqn:Hb;
        apply respects_before_listen in Hb; exact Hb.
    + destruct (cl_seq _ _ st) as [[err|] s] eqn:Hs;
        apply Hserve in Hs; exact Hs.
  - destruct (loop_cond st).
    + destruct (loop_body import_module ev st) as [[err|] s] eqn:Hb;
        apply respects_loop_body in Hb; [exact Hb|].
      eapply R_trans; [exact Hb|apply IH].
    + destruct (cl_seq _ _ st) as [[err|] s] eqn:Hs;
        apply Hserve in Hs; exact Hs.
Qed.
End Respects.

Lemma loop_body_r import_module ev st err st' :
  loop_body import_module ev st = (err, st') -> cl_r st' = cl_r st.
Proof.
  apply (respects_loop_body (fun a b => cl_r b = cl_r a)); try done.
  intros a b c Hab Hbc. congruence.
Qed.

Lemma loop_cond_r st : cl_r st <> 0 -> loop_cond st = true.
Proof. intros Hr. unfold loop_cond. apply Z.eqb_neq in Hr. by rewrite Hr. Qed.

Lemma cache_loop_from_never_serves import_module events st :
  cl_r st <> 0 ->
  forall st', cache_loop_from import_module events st <> Serving st'.
Proof.
  revert st. induction events as [|ev rest IH]; intros st Hr st'; simpl;
    rewrite loop_cond_r by done.
  - by destruct (before_listen st) as [[err|] s].
  - destruct (loop_body import_module ev st) as [[e|] s] eqn:Hb; [done|].
    apply IH. by rewrite (loop_body_r _ _ _ _ _ Hb).
Qed.

(** C1 (the code departs from the claim).  The claim lets the loop be left
    on an iteration whose fork returned 0 and whose signal is not "cache".
    In the code the value of [ns.forkenter()] is stored in [ret_val], while
    the loop tests [r], which keeps its initial value -1: whatever a process
    observes, it never reaches the serving branch.  In particular, after the
    single request "go" with fork return 0 the process is listening
    again. *)
Theorem cache_loop_never_serves :
  (forall import_module events out st,
      cache_loop import_module events out <> Serving st) /\
  (forall import_module,
      exists st,
        cache_loop import_module [ClEvent "go" 0] [] = Listening st /\
        cl_signal st = "go" /\ cl_r st = -1 /\ cl_count st = 1).
Proof.
  split.
  - intros imp events out st.
    apply cache_loop_from_never_serves. simpl. lia.
  - intros imp. eexists. split; [reflexivity|]. done.
Qed.

(** *** Runs in which no name of the loop has been rebound *)

Lemma names_intact_globals st st' :
  cl_globals st' = cl_globals st -> names_intact st -> names_intact st'.
Proof. intros Hg H n Hn. unfold rebound. rewrite Hg. by apply H. Qed.

Lemma names_intact_set_global m md st :
  ~ In m loop_names -> names_intact st -> names_intact (set_global m md st).
Proof.
  intros Hm H n Hn. unfold rebound. cbn [cl_globals set_global].
  rewrite lookup_insert_ne; [by apply H|]. by intros ->.
Qed.

Lemma names_intact_init out : names_intact (cl_init out).
Proof. by intros n _. Qed.

Lemma intact_print text st :
  names_intact st -> print text st = (None, cl_print text st).
Proof. intros H. unfold print, call. rewrite H; [done|]. simpl. tauto. Qed.

Lemma intact_flush st : names_intact st -> flush st = (None, st).
Proof. intros H. unfold flush, call. rewrite H; [done|]. simpl. tauto. Qed.

Lemma intact_redirect st :
  names_intact st -> call "redirect" redirect st = (None, cl_log Reopened st).
Proof.
  intros H. unfold call, redirect. rewrite !H by (simpl; tauto).
  assert (rebound "STDERR_PATH" (cl_log Reopened st) = false) as ->; [|done].
  apply (names_intact_globals st); [done|done|]. simpl. tauto.
Qed.

Lemma intact_before_listen st :
  names_intact st ->
  before_listen st
  = (None, cl_print "LISTENING"
             (if cl_r st =? 0 then cl_print "RESET" st else st)).
Proof.
  intros H. unfold before_listen, cl_seq.
  assert (Hst : names_intact
                  (if cl_r st =? 0 then cl_print "RESET" st else st)).
  { destruct (cl_r st =? 0); [|done]. by apply (names_intact_globals st). }
  assert (Hl : names_intact
                 (cl_print "LISTENING"
                    (if cl_r st =? 0 then cl_print "RESET" st else st))).
  { by eapply names_intact_globals; [|exact Hst]. }
  destruct (cl_r st =? 0).
  - rewrite (intact_print _ _ H).
    rewrite (intact_flush _ Hst), (intact_print _ _ Hst), (intact_flush _ Hl).
    rewrite Hl; [done|]. simpl. tauto.
  - rewrite (intact_print _ _ Hst), (intact_flush _ Hl).
    rewrite Hl; [done|]. simpl. tauto.
Qed.

Lemma import_modules_cons import_module m rest st :
  names_intact st ->
  import_modules import_module (m :: rest) st
  = match import_module m with
    | inr md =>
        import_modules import_module rest
          (set_global m md (cl_print ("importing: " +:+ m) st))
    | inl err =>
        if exc_is_Exception err then
          import_modules import_module rest
            (cl_print ("failed to import " +:+ m +:+ ": " +:+ exc_msg err)
               (cl_print ("importing: " +:+ m) st))
        else (Some err, cl_print ("importing: " +:+ m) st)
    end.
Proof.
  intros H.
  assert (H1 : names_intact (cl_print ("importing: " +:+ m) st)).
  { by apply (names_intact_globals st). }
  cbn [import_modules]. unfold cl_seq at 1. rewrite (intact_print _ _ H).
  unfold cl_seq, try_except, bind_module, call, cl_do.
  destruct (import_module m) as [err|md].
  - rewrite H1 by (simpl; tauto).
    destruct (exc_is_Exception err); [|done].
    by rewrite (intact_print _ _ H1).
  - by rewrite H1 by (simpl; tauto).
Qed.

(** What the import loop does from a state in which the names are intact,
    for modules that leave them so. *)
Lemma import_modules_run import_module mods : forall st,
  names_intact st -> harmless import_module mods ->
  exists e st',
    import_modules import_module mods st = (e, st') /\
    names_intact st' /\
    cl_signal st' = cl_signal st /\ cl_count st' = cl_count st /\
    (forall m md, import_module m = inr md ->
                  cl_globals st !! m = Some md ->
                  cl_globals st' !! m = Some md) /\
    match e with
    | None =>
        cl_out st' = cl_out st ++ import_log import_module mods /\
        (forall m md, In m mods -> import_module m = inr md ->
                      cl_globals st' !! m = Some md)
    | Some err =>
        exc_is_Exception err = false /\
        exists m, In m mods /\ import_module m = inl err
    end.
Proof.
  induction mods as [|m0 mods IH]; intros st Hst Hmods.
  - exists None, st. repeat split; try done. simpl. by rewrite app_nil_r.
  - assert (Hrest : harmless import_module mods).
    { intros m md Hin. apply Hmods. by right. }
    assert (H1 : names_intact (cl_print ("importing: " +:+ m0) st)).
    { by apply (names_intact_globals st). }
    rewrite import_modules_cons by done.
    destruct (import_module m0) as [err|md0] eqn:Hm0.
    + destruct (exc_is_Exception err) eqn:Herr.
      * edestruct (IH (cl_print ("failed to import " +:+ m0 +:+ ": "
                                 +:+ exc_msg err)
                         (cl_print ("importing: " +:+ m0) st)))
          as (e & st' & Hrun & Hint & Hsig & Hcount & Hkeep & He);
          [by apply (names_intact_globals st)|done|].
        exists e, st'. split; [done|]. split; [done|]. split; [done|].
        split; [done|]. split; [exact Hkeep|].
        destruct e as [x|].
        -- destruct He as (Hx & m & Hin & Hm). split; [done|].
           exists m. split; [by right|done].
        -- destruct He as [Hout Hglob]. split.
           ++ rewrite Hout. simpl. rewrite Hm0. simpl.
              by rewrite <- !app_assoc.
           ++ intros m md [<-|Hin] Hm; [congruence|]. by apply Hglob.
      * exists (Some err), (cl_print ("importing: " +:+ m0) st).
        repeat split; try done. exists m0. split; [by left|done].
    + edestruct (IH (set_global m0 md0 (cl_print ("importing: " +:+ m0) st)))
        as (e & st' & Hrun & Hint & Hsig & Hcount & Hkeep & He).
      { apply names_intact_set_global; [|done].
        apply (Hmods m0 md0); [by left|done]. }
      { done. }
      assert (Hhere : cl_globals st' !! m0 = Some md0).
      { apply Hkeep; [done|]. simpl. apply lookup_insert_eq. }
      exists e, st'. split; [done|]. split; [done|]. split; [done|].
      split; [done|]. split.
      { intros m md Hm Hg. apply Hkeep; [done|]. simpl.
        destruct (decide (m0 = m)) as [->|Hne].
        - rewrite Hm in Hm0. injection Hm0 as ->. apply lookup_insert_eq.
        - by rewrite lookup_insert_ne. }
      destruct e as [x|].
      * destruct He as (Hx & m & Hin & Hm). split; [done|].
        exists m. split; [by right|done].
      * destruct He as [Hout Hglob]. split.
        -- rewrite Hout. simpl. rewrite Hm0. simpl.
           by rewrite <- !app_assoc.
        -- intros m md [<-|Hin] Hm; [congruence|]. by apply Hglob.
Qed.

(** The same for lines 154-166. *)
Lemma child_branch_run import_module mods signal st :
  names_intact st -> harmless import_module mods ->
  exists e st',
    child_branch import_module mods signal st = (e, st') /\
    names_intact st' /\
    cl_signal st' = cl_signal st /\ cl_count st' = cl_count st /\
    match e with
    | None =>
        cl_out st' = cl_out st ++ [Reopened] ++ import_log import_module mods
                     ++ [Printed ("signal: " +:+ signal)] /\
        (forall m md, In m mods -> import_module m = inr md ->
                      cl_globals st' !! m = Some md)
    | Some err =>
        exc_is_Exception err = false /\
        exists m, In m mods /\ import_module m = inl err
    end.
Proof.
  intros Hst Hmods. unfold child_branch, cl_seq.
  rewrite intact_redirect by done.
  destruct (import_modules_run import_module mods (cl_log Reopened st))
    as (e & st1 & -> & Hint & Hsig & Hcount & _ & He);
    [by apply (names_intact_globals st)|done|].
  destruct e as [err|].
  - exists (Some err), st1. by destruct He.
  - assert (H2 : names_intact (cl_print ("signal: " +:+ signal) st1)).
    { by apply (names_intact_globals st1). }
    rewrite (intact_print _ _ Hint), (intact_flush _ H2).
    exists None, (cl_print ("signal: " +:+ signal) st1).
    split; [done|]. split; [done|]. split; [done|]. split; [done|].
    destruct He as [Hout Hglob]. split; [|exact Hglob].
    simpl. rewrite Hout. simpl. by rewrite <- !app_assoc.
Qed.

Lemma cl_seq_done p q st st' :
  cl_seq p q st = (None, st') ->
  exists s, p st = (None, s) /\ q s = (None, st').
Proof.
  unfold cl_seq. destruct (p st) as [[e|] s]; [done|]. intros H. by exists s.
Qed.

Lemma before_listen_flush st st' :
  before_listen st = (None, st') -> flush st' = (None, st').
Proof.
  intros Hb. unfold before_listen in Hb.
  apply cl_seq_done in Hb as (s1 & _ & Hb).
  apply cl_seq_done in Hb as (s2 & _ & Hb).
  apply cl_seq_done in Hb as (s3 & Hf & Hb).
  assert (s3 = s2 /\ rebound "flush" s2 = false) as [-> Hfl].
  { unfold flush, call, cl_pass in Hf.
    destruct (rebound "flush" s2); [done|]. by injection Hf. }
  assert (st' = s2) as ->.
  { destruct (rebound "FS_PATH" s2); by injection Hb. }
  unfold flush, call. by rewrite Hfl.
Qed.

(** C9.  A control line is split on whitespace; the last token is the
    signal and the tokens before it are the module names.  A line has at
    least one token exactly when it is not made of whitespace only; on an
    empty or whitespace-only line indexing the signal raises [IndexError],
    nothing catches it, and the loop is left by an exception: by that
    [IndexError] wherever the process had come to listen, which is the case
    of the first line that [cache_loop] receives. *)
Theorem parse_control_needs_token (line : string) :
  (forall mods signal,
      py_split line = mods ++ [signal] ->
      parse_control line = inr (mods, signal)) /\
  (all_space line = false ->
   exists mods signal,
     py_split line = mods ++ [signal] /\
     parse_control line = inr (mods, signal)) /\
  (all_space line = true ->
   parse_control line = inl IndexError /\
   forall import_module ret rest,
     (forall st,
         loop_cond st = true ->
         (exists err st',
             cache_loop_from import_module (ClEvent line ret :: rest) st
             = Crashed err st') /\
         (forall st',
             before_listen st = (None, st') ->
             cache_loop_from import_module (ClEvent line ret :: rest) st
             = Crashed IndexError st')) /\
     (forall out,
         cache_loop import_module (ClEvent line ret :: rest) out
         = Crashed IndexError (cl_print "LISTENING" (cl_init out)))).
Proof.
  split; [|split].
  - apply parse_control_tokens.
  - intros Hsp.
    destruct (exists_last (l := py_split line)) as (mods & signal & Heq).
    { intros Hnil%py_split_nil_iff. congruence. }
    exists mods, signal. split; [done|]. by apply parse_control_tokens.
  - intros Hsp%py_split_nil_iff.
    assert (Hpc : parse_control line = inl IndexError).
    { unfold parse_control. by rewrite Hsp. }
    split; [done|]. intros imp ret rest.
    assert (Hlisten : forall st st',
               loop_cond st = true ->
               before_listen st = (None, st') ->
               cache_loop_from imp (ClEvent line ret :: rest) st
               = Crashed IndexError st').
    { intros st st' Hc Hb. simpl. rewrite Hc.
      unfold loop_body, cl_seq. rewrite Hb, (before_listen_flush _ _ Hb).
      simpl. by rewrite Hpc. }
    split.
    + intros st Hc. split; [|intros st'; by apply Hlisten].
      destruct (before_listen st) as [[err|] s] eqn:Hb.
      * exists err, s. simpl. rewrite Hc. unfold loop_body, cl_seq.
        by rewrite Hb.
      * exists IndexError, s. by apply Hlisten.
    + intros out. apply Hlisten; [done|].
      by rewrite intact_before_listen by apply names_intact_init.
Qed.

Lemma parse_control_needs_token_witness :
  parse_control "mod1 mod2 cache" = inr (["mod1"; "mod2"], "cache") /\
  parse_control "  " = inl IndexError.
Proof.
  split.
  - apply (proj1 (parse_control_needs_token "mod1 mod2 cache")).
    reflexivity.
  - apply (proj2 (proj2 (parse_control_needs_token "  "))).
    reflexivity.
Defined.

Lemma import_log_failure import_module mods m e :
  In m mods -> import_module m = inl e ->
  In (Printed ("failed to import " +:+ m +:+ ": " +:+ exc_msg e))
     (import_log import_module mods).
Proof.
  intros Hin Hm. unfold import_log. apply in_flat_map.
  exists m. split; [done|]. rewrite Hm. right. by left.
Qed.

Lemma import_log_attempt import_module mods m :
  In m mods ->
  In (Printed ("importing: " +:+ m)) (import_log import_module mods).
Proof.
  intros Hin. unfold import_log. apply in_flat_map.
  exists m. split; [done|]. by left.
Qed.

(** C7 (amended).  In the import step every named module is attempted, in
    the order of the list; an import that fails with an exception deriving
    from [Exception] is caught and logged and the following modules are
    still imported; the step ends by printing the signal.  This holds as
    long as no imported module bears a name that the loop itself reads
    ([print], [flush], [globals], [Exception], ...), before the step or in
    it.  With [good_a] and [good_c] importable and [missing_b] not, the
    list [good_a; missing_b; good_c] leaves both good modules in the
    globals and one failure line for [missing_b] in the log. *)
Theorem import_failure_tolerated
    (import_module : string -> py_exc + py_module)
    (mods : list string) (signal : string) (st : cl_state) :
  (forall m e, In m mods -> import_module m = inl e ->
               exc_is_Exception e = true) ->
  names_intact st ->
  harmless import_module mods ->
  exists st',
    child_branch import_module mods signal st = (None, st') /\
    cl_out st' = cl_out st ++ [Reopened] ++ import_log import_module mods
                 ++ [Printed ("signal: " +:+ signal)] /\
    (forall m, In m mods -> In (Printed ("importing: " +:+ m)) (cl_out st')) /\
    (forall m md, In m mods -> import_module m = inr md ->
                  cl_globals st' !! m = Some md) /\
    (forall m e, In m mods -> import_module m = inl e ->
                 In (Printed ("failed to import " +:+ m +:+ ": "
                              +:+ exc_msg e)) (cl_out st')).
Proof.
  intros Hexc Hst Hmods.
  destruct (child_branch_run import_module mods signal st Hst Hmods)
    as (e & st' & Hrun & _ & _ & _ & He).
  destruct e as [err|].
  { destruct He as (Herr & m & Hin & Hm).
    rewrite (Hexc m err Hin Hm) in Herr. discriminate. }
  destruct He as [Hlog Hglob].
  exists st'. split; [exact Hrun|]. split; [exact Hlog|]. split; [|split].
  - intros m Hin. rewrite Hlog. apply in_or_app. right.
    apply in_or_app. right. apply in_or_app. left.
    by apply import_log_attempt.
  - exact Hglob.
  - intros m e Hin Hm. rewrite Hlog. apply in_or_app. right.
    apply in_or_app. right. apply in_or_app. left.
    by apply import_log_failure.
Qed.

Lemma import_failure_tolerated_witness :
  exists st',
    child_branch sample_import ["good_a"; "missing_b"; "good_c"] "go"
      (cl_init []) = (None, st') /\
    cl_out st' =
      [Reopened; Printed "importing: good_a"; Printed "importing: missing_b";
       Printed "failed to import missing_b: No module named 'missing_b'";
       Printed "importing: good_c"; Printed "signal: go"] /\
    cl_globals st' !! "good_a" = Some (Module "good_a") /\
    cl_globals st' !! "good_c" = Some (Module "good_c").
Proof.
  destruct (import_failure_tolerated sample_import
              ["good_a"; "missing_b"; "good_c"] "go" (cl_init []))
    as (st' & Hrun & Hout & _ & Hglob & _).
  { intros m e [<-|[<-|[<-|[]]]]; vm_compute; intros [= <-]; reflexivity. }
  { apply names_intact_init. }
  { intros m md [<-|[<-|[<-|[]]]] _; vm_compute; intuition discriminate. }
  exists st'. split; [exact Hrun|]. split; [exact Hout|].
  split; apply Hglob; simpl; auto.
Defined.

(** C7 as stated fails in two ways.  An import that raises something not
    deriving from [Exception], as a module that calls [sys.exit(3)] does,
    passes the [except Exception] of line 162: the exception leaves the
    loop, the modules after it are not attempted and the signal branch is
    not reached.  And a module named [print], once imported, is what the
    name [print] yields: the next call of line 159 raises [TypeError]
    outside the [try], which ends the batch as well. *)
Lemma import_aborts_batch :
  (let r := child_branch exiting_import ["good_a"; "exits_b"; "good_c"] "go"
              (cl_init []) in
   fst r = Some (PyExc "SystemExit" "3" false) /\
   cl_out (snd r) = [Reopened; Printed "importing: good_a";
                     Printed "importing: exits_b"] /\
   cl_globals (snd r) !! "good_c" = None) /\
  (let r := child_branch sample_import ["good_a"; "print"; "good_c"] "go"
              (cl_init []) in
   fst r = Some not_callable /\
   cl_out (snd r) = [Reopened; Printed "importing: good_a";
                     Printed "importing: print"] /\
   cl_globals (snd r) !! "good_c" = None).
Proof. split; vm_compute; done. Qed.

(** ** Blocks *)

Lemma and_then_continues (p q : block) :
  snd p = Continues -> (p ;; q) = (fst p ++ fst q, snd q).
Proof. unfold and_then. by intros ->. Qed.

Lemma and_then_stops (p q : block) :
  snd p <> Continues -> (p ;; q) = p.
Proof. unfold and_then. by destruct (snd p). Qed.

Lemma open_after_app acts1 acts2 open :
  open_after (acts1 ++ acts2) open = open_after acts2 (open_after acts1 open).
Proof. unfold open_after. apply foldl_app. Qed.

(** ** The reply of the fork server *)

Lemma shiftr_land_255_bits n k i :
  0 <= k -> 0 <= i ->
  Z.testbit (Z.shiftl (Z.land (Z.shiftr n k) 255) k) i
  = Z.testbit n i && (k <=? i) && (i <? k + 8).
Proof.
  intros Hk Hi. change 255 with (Z.ones 8).
  rewrite Z.shiftl_spec by done.
  destruct (Z.leb_spec k i) as [Hle|Hlt].
  - rewrite Z.land_spec, Z.shiftr_spec by lia.
    replace (i - k + k) with i by lia.
    destruct (Z.ltb_spec i (k + 8)).
    + rewrite Z.ones_spec_low by lia. by rewrite !andb_true_r.
    + rewrite Z.ones_spec_high by lia. by rewrite !andb_false_r.
  - rewrite Z.testbit_neg_r by lia. by rewrite andb_false_r.
Qed.

Lemma struct_unpack_pack n data :
  struct_pack_I n = Some data ->
  struct_unpack_I data = Some n /\ length data = 4%nat.
Proof.
  unfold struct_pack_I.
  destruct (Z.leb_spec 0 n) as [Hlo|]; [|done].
  destruct (Z.ltb_spec n (2 ^ 32)) as [Hhi|]; [|done].
  simpl. intros [= <-]. split; [|done].
  unfold struct_unpack_I. f_equal.
  apply Z.bits_inj'. intros i Hi.
  rewrite <- (Z.shiftl_0_r (Z.land n 255)) at 1.
  rewrite <- (Z.shiftr_0_r n) at 1.
  rewrite !Z.lor_spec, !shiftr_land_255_bits by lia.
  destruct (Z.ltb_spec i 32) as [Hlt|Hge].
  - destruct (Z.testbit n i); [|done]. simpl.
    destruct (Z.leb_spec 0 i), (Z.ltb_spec i (0 + 8)),
      (Z.leb_spec 8 i), (Z.ltb_spec i (8 + 8)),
      (Z.leb_spec 16 i), (Z.ltb_spec i (16 + 8)),
      (Z.leb_spec 24 i), (Z.ltb_spec i (24 + 8)); simpl; try done; lia.
  - assert (Z.testbit n i = false) as ->; [|done].
    rewrite <- (Z.mod_small n (2 ^ 32)) by lia.
    apply Z.mod_pow2_bits_high. lia.
Qed.

Lemma struct_pack_I_inj n m data :
  struct_pack_I n = Some data -> struct_pack_I m = Some data -> n = m.
Proof.
  intros [Hn _]%struct_unpack_pack [Hm _]%struct_unpack_pack. congruence.
Qed.

Lemma struct_pack_I_range n :
  0 <= n < 2 ^ 32 -> exists data, struct_pack_I n = Some data.
Proof.
  intros [Hlo Hhi]. unfold struct_pack_I.
  destruct (Z.leb_spec 0 n); [|lia].
  destruct (Z.ltb_spec n (2 ^ 32)); [|lia]. simpl. eauto.
Qed.

(** What the fork server does with a connection that carries two
    descriptors, in the process to which the fork returns the child's
    pid. *)
Lemma fork_server_iteration_parent listen_fd bootstrap_path frames req
    root_fd mem_cgroup_fd data :
  recv_fds 2 (req_attached req) = [root_fd; mem_cgroup_fd] ->
  req_fork req <> 0 ->
  struct_pack_I (req_fork req) = Some data ->
  fork_server_iteration listen_fd bootstrap_path frames req
  = ([Accept (req_client req);
      RecvFds (req_client req) [root_fd; mem_cgroup_fd];
      Fork (req_fork req);
      Close root_fd; Close mem_cgroup_fd;
      Waitpid (req_fork req);
      Sendall (req_client req) data;
      Close (req_client req)], Continues).
Proof.
  intros Hfds Hpid Hpack. unfold fork_server_iteration, parent_branch.
  rewrite Hfds, Hpack. apply Z.eqb_neq in Hpid. rewrite Hpid. reflexivity.
Qed.

(** C2 (amended).  For a request with two descriptors the fork server
    answers with four bytes that encode the value its own [os.fork()]
    returned, i.e. the pid of the intermediate child it waited for.  The
    pid of the worker forked by that child is never passed back: whenever
    it differs from the child's pid, the reply is not its encoding. *)
Theorem reply_is_child_pid (listen_fd : nat) (bootstrap_path frames : string)
    (req : request) (root_fd mem_cgroup_fd : nat) :
  recv_fds 2 (req_attached req) = [root_fd; mem_cgroup_fd] ->
  0 < req_fork req < 2 ^ 32 ->
  exists data,
    fork_server_iteration listen_fd bootstrap_path frames req
    = ([Accept (req_client req);
        RecvFds (req_client req) [root_fd; mem_cgroup_fd];
        Fork (req_fork req);
        Close root_fd; Close mem_cgroup_fd;
        Waitpid (req_fork req);
        Sendall (req_client req) data;
        Close (req_client req)], Continues) /\
    length data = 4%nat /\
    struct_unpack_I data = Some (req_fork req) /\
    (sb_fork (req_sandbox req) <> req_fork req ->
     struct_pack_I (sb_fork (req_sandbox req)) <> Some data).
Proof.
  intros Hfds Hpid.
  destruct (struct_pack_I_range (req_fork req)) as [data Hpack]; [lia|].
  exists data. split.
  { apply fork_server_iteration_parent; [done|lia|done]. }
  destruct (struct_unpack_pack _ _ Hpack) as [Hun Hlen].
  split; [done|]. split; [done|].
  intros Hne Hg. apply Hne. eapply struct_pack_I_inj; eauto.
Qed.

Lemma reply_is_child_pid_witness :
  exists data,
    fork_server_iteration 3 "/bootstrap.py" "" sample_request
    = ([Accept 5; RecvFds 5 [6; 7]%nat; Fork 4242; Close 6; Close 7;
        Waitpid 4242; Sendall 5 data; Close 5], Continues) /\
    length data = 4%nat /\
    struct_unpack_I data = Some 4242 /\
    (4243 <> 4242 -> struct_pack_I 4243 <> Some data).
Proof.
  apply (reply_is_child_pid 3 "/bootstrap.py" "" sample_request 6 7).
  - reflexivity.
  - simpl. lia.
Defined.

(** C2 as stated fails: in the run of [sample_request] the child has pid
    4242 and the worker 4243, and the reply decodes to 4242. *)
Lemma reply_is_not_grandchild_pid :
  In (Sendall 5 [146; 16; 0; 0])
     (fst (fork_server_iteration 3 "/bootstrap.py" "" sample_request)) /\
  struct_unpack_I [146; 16; 0; 0] = Some (req_fork sample_request) /\
  ~ (forall data,
        In (Sendall (req_client sample_request) data)
           (fst (fork_server_iteration 3 "/bootstrap.py" "" sample_request)) ->
        struct_unpack_I data = Some (sb_fork (req_sandbox sample_request))).
Proof.
  assert (Hin : In (Sendall 5 [146; 16; 0; 0])
     (fst (fork_server_iteration 3 "/bootstrap.py" "" sample_request))).
  { vm_compute. tauto. }
  split; [exact Hin|]. split; [reflexivity|].
  intros H. specialize (H _ Hin). vm_compute in H. discriminate.
Qed.

Lemma fork_server_loop_app listen_fd bootstrap_path frames served later :
  Forall (λ req, snd (fork_server_iteration listen_fd bootstrap_path frames
                        req) = Continues) served ->
  fork_server_loop listen_fd bootstrap_path frames (served ++ later)
  = (concat (map (λ req, fst (fork_server_iteration listen_fd bootstrap_path
                                frames req)) served)
     ++ fst (fork_server_loop listen_fd bootstrap_path frames later),
     snd (fork_server_loop listen_fd bootstrap_path frames later)).
Proof.
  induction 1 as [|req served Hreq _ IH]; simpl.
  - by destruct (fork_server_loop _ _ _ later).
  - rewrite and_then_continues by done. rewrite IH. simpl.
    by rewrite <- app_assoc.
Qed.

Lemma fork_server_unfold listen_fd bootstrap_path frames reqs :
  fork_server listen_fd bootstrap_path frames reqs
  = (Stdout ("server.py: start fork server on fd: " +:+ pretty listen_fd)
       :: fst (fork_server_loop listen_fd bootstrap_path frames reqs),
     snd (fork_server_loop listen_fd bootstrap_path frames reqs)).
Proof. reflexivity. Qed.

(** C3 (amended).  When a connection delivers a number of descriptors
    other than two, unpacking them raises [ValueError], which nothing in
    [fork_server] catches: after the connections handled before it, the
    fork server accepts this one, receives, and is left by the exception.
    It neither answers nor closes the connection, and whatever connections
    come later are not accepted. *)
Theorem wrong_fd_count_raises (listen_fd : nat)
    (bootstrap_path frames : string)
    (served : list request) (bad : request) (later : list request) :
  Forall (λ req, snd (fork_server_iteration listen_fd bootstrap_path frames
                        req) = Continues) served ->
  length (recv_fds 2 (req_attached bad)) <> 2%nat ->
  let fds := recv_fds 2 (req_attached bad) in
  fork_server listen_fd bootstrap_path frames (served ++ bad :: later)
  = (fst (fork_server listen_fd bootstrap_path frames served)
     ++ [Accept (req_client bad); RecvFds (req_client bad) fds;
         Raise (unpack_error (length fds))],
     Raises (unpack_error (length fds))).
Proof.
  intros Hserved Hlen fds.
  rewrite !fork_server_unfold, fork_server_loop_app by done.
  pose proof (fork_server_loop_app listen_fd bootstrap_path frames served []
                Hserved) as Hall.
  rewrite app_nil_r in Hall. rewrite Hall.
  assert (Hbad : fork_server_iteration listen_fd bootstrap_path frames bad
                 = ([Accept (req_client bad); RecvFds (req_client bad) fds;
                     Raise (unpack_error (length fds))],
                    Raises (unpack_error (length fds)))).
  { unfold fork_server_iteration. subst fds.
    destruct (recv_fds 2 (req_attached bad)) as [|a [|b [|c l]]];
      try reflexivity.
    by destruct Hlen. }
  simpl. rewrite Hbad. simpl. by rewrite app_nil_r.
Qed.

Lemma wrong_fd_count_raises_witness :
  fork_server 3 "/bootstrap.py" "" ([sample_request] ++ short_request :: [second_request])
  = (fst (fork_server 3 "/bootstrap.py" "" [sample_request])
     ++ [Accept 5; RecvFds 5 [6%nat]; Raise (unpack_error 1)],
     Raises (unpack_error 1)).
Proof.
  apply (wrong_fd_count_raises 3 "/bootstrap.py" "" [sample_request]
           short_request [second_request]).
  - repeat constructor.
  - simpl. lia.
Defined.

(** C3 as stated fails: a connection with one descriptor, followed by a
    complete request.  The fork server is left by [ValueError] after
    receiving on the first connection; it prints nothing about it, does not
    close it, and never accepts the second. *)
Lemma wrong_fd_count_stops_server :
  let run := fork_server 3 "/bootstrap.py" "" [short_request; second_request] in
  run = ([Stdout "server.py: start fork server on fd: 3";
          Accept 5; RecvFds 5 [6%nat]; Raise (unpack_error 1)],
         Raises (unpack_error 1)) /\
  ~ In (Accept (req_client second_request)) (fst run) /\
  ~ In (Close (req_client short_request)) (fst run) /\
  snd run <> Waiting.
Proof.
  split; [reflexivity|]. vm_compute.
  repeat split; try discriminate; intuition discriminate.
Qed.

(** ** Descriptors of the fork server *)

Lemma sandbox_request_iteration listen_fd bootstrap_path frames open req :
  sandbox_request open req ->
  exists root_fd mem_cgroup_fd data,
    req_attached req = [root_fd; mem_cgroup_fd] /\
    fork_server_iteration listen_fd bootstrap_path frames req
    = ([Accept (req_client req);
        RecvFds (req_client req) [root_fd; mem_cgroup_fd];
        Fork (req_fork req);
        Close root_fd; Close mem_cgroup_fd;
        Waitpid (req_fork req);
        Sendall (req_client req) data;
        Close (req_client req)], Continues).
Proof.
  intros (Hlen & Hpid & _ & _).
  destruct (req_attached req) as [|root_fd [|mem_cgroup_fd [|x l]]] eqn:Hatt;
    try discriminate.
  destruct (struct_pack_I_range (req_fork req)) as [data Hpack]; [lia|].
  exists root_fd, mem_cgroup_fd, data. split; [done|].
  apply fork_server_iteration_parent; [by rewrite Hatt|lia|done].
Qed.

Lemma sandbox_request_open listen_fd bootstrap_path frames open req :
  sandbox_request open req ->
  open_after (fst (fork_server_iteration listen_fd bootstrap_path frames req))
             open = open.
Proof.
  intros Hreq.
  destruct (sandbox_request_iteration listen_fd bootstrap_path frames _ _ Hreq)
    as (root_fd & mem_cgroup_fd & data & Hatt & ->).
  destruct Hreq as (_ & _ & Hclient & Hfresh).
  rewrite Hatt in Hfresh.
  apply Forall_cons in Hfresh as [Hroot Hfresh].
  apply Forall_cons in Hfresh as [Hmem _].
  unfold open_after. simpl. set_solver.
Qed.

(** C6.  In the fork server the two operations that follow the fork are
    the closing of the root descriptor and of the cgroup descriptor, and
    the connection itself is closed after the reply; so after any number of
    sandbox-creation requests the fork server is back in [accept] with the
    set of open descriptors it started with. *)
Theorem parent_descriptors_unchanged (listen_fd : nat)
    (bootstrap_path frames : string) (reqs : list request)
    (open : gset nat) :
  Forall (sandbox_request open) reqs ->
  Forall (λ req,
            exists root_fd mem_cgroup_fd rest,
              fst (fork_server_iteration listen_fd bootstrap_path frames req)
              = [Accept (req_client req);
                 RecvFds (req_client req) [root_fd; mem_cgroup_fd];
                 Fork (req_fork req);
                 Close root_fd; Close mem_cgroup_fd] ++ rest) reqs /\
  snd (fork_server listen_fd bootstrap_path frames reqs) = Waiting /\
  open_after (fst (fork_server listen_fd bootstrap_path frames reqs)) open
  = open.
Proof.
  intros Hreqs. split; [|rewrite fork_server_unfold; simpl].
  - eapply Forall_impl; [exact Hreqs|]. intros req Hreq.
    destruct (sandbox_request_iteration listen_fd bootstrap_path frames
                _ _ Hreq) as (root_fd & mem_cgroup_fd & data & _ & Hit).
    cbv beta. rewrite Hit. by eexists _, _, _.
  - induction Hreqs as [|req reqs Hreq Hreqs [IHfl IHopen]]; [done|].
    simpl.
    destruct (sandbox_request_iteration listen_fd bootstrap_path frames
                _ _ Hreq) as (root_fd & mem_cgroup_fd & data & _ & Hit).
    rewrite and_then_continues by (by rewrite Hit).
    simpl. split; [exact IHfl|].
    change (open_after (fst (fork_server_iteration listen_fd bootstrap_path
                               frames req)
                        ++ fst (fork_server_loop listen_fd bootstrap_path
                                  frames reqs)) open = open).
    rewrite open_after_app, sandbox_request_open by done.
    exact IHopen.
Qed.

Lemma parent_descriptors_unchanged_witness :
  snd (fork_server 3 "/bootstrap.py" "" [sample_request; second_request])
  = Waiting /\
  open_after
    (fst (fork_server 3 "/bootstrap.py" "" [sample_request; second_request]))
    {[0; 1; 2; 3]}%nat
  = {[0; 1; 2; 3]}%nat.
Proof.
  apply (parent_descriptors_unchanged 3 "/bootstrap.py" ""
           [sample_request; second_request] {[0; 1; 2; 3]}%nat).
  repeat constructor; simpl; try lia; set_solver.
Defined.

(** ** The bootstrap script *)

(** C5 (amended).  An exception deriving from [Exception] raised by the
    bootstrap script is caught at line 280: the traceback and then the full
    text of the script are printed, and the script is not run again.
    [start_sock_container] then returns; in a worker started by the fork
    server the next statement is [os._exit(1)], so that process ends with
    status 1. *)
Theorem bootstrap_failure_logged (bootstrap_path frames : string)
    (req : request) (code : string) (err : py_exc) :
  sb_bootstrap (req_sandbox req) = inr code ->
  sb_exec (req_sandbox req) = ExecRaises err ->
  exc_is_Exception err = true ->
  let log :=
    [ReadFile bootstrap_path; Exec code;
     Stdout ("Exception: " +:+ format_exc frames err);
     Stdout ("Problematic Python Code:" +:+ String "010" "" +:+ code)] in
  run_bootstrap bootstrap_path frames (req_sandbox req) = (log, Continues) /\
  fs_worker_branch bootstrap_path frames req = (log ++ [Exit 1], Exits 1) /\
  length (List.filter is_exec
            (fst (fs_worker_branch bootstrap_path frames req))) = 1%nat.
Proof.
  intros Hcode Hexec Hexc log.
  assert (Hrun : run_bootstrap bootstrap_path frames (req_sandbox req)
                 = (log, Continues)).
  { unfold run_bootstrap. by rewrite Hcode, Hexec, Hexc. }
  assert (Hw : fs_worker_branch bootstrap_path frames req
               = (log ++ [Exit 1], Exits 1)).
  { unfold fs_worker_branch, start_sock_container_post. simpl.
    by rewrite Hrun. }
  split; [done|]. split; [done|]. by rewrite Hw.
Qed.

Lemma bootstrap_failure_logged_witness :
  fs_worker_branch "/bootstrap.py" "" (Request 5 [6; 7]%nat 4242 4242 failing_script)
  = ([ReadFile "/bootstrap.py"; Exec "import nothing";
      Stdout ("Exception: " +:+ format_exc ""
                (PyExc "ModuleNotFoundError" "No module named 'nothing'" true));
      Stdout ("Problematic Python Code:" +:+ String "010" ""
              +:+ "import nothing")] ++ [Exit 1], Exits 1).
Proof.
  apply (bootstrap_failure_logged "/bootstrap.py" ""
           (Request 5 [6; 7]%nat 4242 4242 failing_script)
           "import nothing"
           (PyExc "ModuleNotFoundError" "No module named 'nothing'" true));
    reflexivity.
Defined.

(** C5 as stated fails in two ways.  When [start_sock_container] was called
    by [main], a failing script is logged and the process then falls off
    the end of [main]: its exit status is 0.  And an exception that does not
    derive from [Exception], such as the [SystemExit] of [sys.exit(3)], is
    not caught: nothing is logged and it propagates. *)
Lemma bootstrap_failure_exit_status_zero :
  snd (main_worker "/bootstrap.py" (MainEnv 0 77 "" failing_script (λ _, FdWritten)))
  = Exits 0 /\
  fs_worker_branch "/bootstrap.py" ""
    (Request 5 [6; 7]%nat 4242 4242 exiting_script)
  = ([ReadFile "/bootstrap.py"; Exec "import sys; sys.exit(3)";
      Raise (PyExc "SystemExit" "3" false)],
     Raises (PyExc "SystemExit" "3" false)).
Proof. split; reflexivity. Qed.

(** ** Order of the bind and of the reply *)

Lemma guarded_sound p q l1 : forall seen l x l2,
  guarded p q seen l = true ->
  l = l1 ++ x :: l2 -> q x = true ->
  seen = true \/ exists y, In y l1 /\ p y = true.
Proof.
  induction l1 as [|a l1 IH]; intros seen l x l2 Hg -> Hq; simpl in Hg.
  - rewrite Hq in Hg. simpl in Hg. apply andb_prop in Hg as [-> _]. by left.
  - apply andb_prop in Hg as [_ Hg].
    destruct (IH _ _ _ _ Hg eq_refl Hq) as [Hseen|(y & Hy & Hp)].
    + apply orb_prop in Hseen as [->|Hpa]; [by left|].
      right. exists a. split; [by left|done].
    + right. exists y. split; [by right|done].
Qed.

Lemma actions_of_app who tr1 tr2 :
  actions_of who (tr1 ++ tr2) = actions_of who tr1 ++ actions_of who tr2.
Proof. unfold actions_of. apply omap_app. Qed.

Lemma actions_of_In who a tr :
  In a (actions_of who tr) -> In (who, a) tr.
Proof.
  induction tr as [|[w b] tr IH]; simpl; [done|].
  destruct w, who; simpl; intros H;
    try (destruct H as [->|H]; [by left|]); right; by apply IH.
Qed.

Lemma snoc_split {A} (tr : list A) e pre x post :
  tr ++ [e] = pre ++ x :: post ->
  (post = [] /\ x = e /\ pre = tr) \/
  (exists post', post = post' ++ [e] /\ tr = pre ++ x :: post').
Proof.
  destruct (exists_last (l := x :: post)) as (l & y & Hl); [done|].
  intros H. rewrite Hl, app_assoc in H.
  apply app_inj_tail in H as [-> ->].
  destruct post as [|z post].
  - left. destruct l as [|? [|? ?]]; simplify_eq/=.
    by rewrite app_nil_r.
  - right.
    destruct (exists_last (l := z :: post)) as (post' & y' & Hp); [done|].
    rewrite Hp in Hl. change (x :: post' ++ [y']) with ((x :: post') ++ [y'])
      in Hl.
    apply app_inj_tail in Hl as [<- <-].
    exists post'. by rewrite Hp.
Qed.

Section Order.
Variable listen_fd : nat.
Variables (bootstrap_path frames : string).
Variables (root_fd mem_cgroup_fd : nat).
Variable req : request.

Local Abbreviation parent_program :=
  (fst (parent_branch root_fd mem_cgroup_fd (req_client req) (req_fork req))).
Local Abbreviation child_program :=
  (fst (fs_child_branch listen_fd bootstrap_path frames root_fd mem_cgroup_fd
          req)).
Local Abbreviation inv :=
  (reachable_inv (req_fork req) (req_client req) parent_program
     child_program).

Lemma parent_program_guarded :
  guarded is_waitpid is_sendall false (Fork (req_fork req) :: parent_program)
  = true.
Proof.
  unfold parent_branch.
  by destruct (struct_pack_I (req_fork req)).
Qed.

Lemma child_program_guarded :
  guarded is_bind is_fork_or_exit0 false child_program = true.
Proof.
  unfold fs_child_branch, start_sock_container, start_sock_container_pre,
    start_sock_container_post, run_bootstrap.
  destruct (req_sandbox req) as [u b g bs ex]. simpl.
  destruct (u =? 0); [|reflexivity].
  destruct b as [e|]; [reflexivity|].
  destruct (g >=? 0); [|reflexivity].
  destruct (g >? 0); [reflexivity|].
  destruct bs as [e|code]; [reflexivity|].
  destruct ex as [|e|]; try reflexivity.
  by destruct (exc_is_Exception e).
Qed.

Lemma child_program_binds :
  sb_unshare (req_sandbox req) = 0 ->
  sb_bind (req_sandbox req) = None ->
  In (BindUnix SOCK_PATH) child_program.
Proof.
  unfold fs_child_branch, start_sock_container, start_sock_container_pre.
  destruct (req_sandbox req) as [u b g bs ex]. simpl.
  intros -> ->. simpl.
  destruct (start_sock_container_post _ _ _ _) as [post []]; simpl; tauto.
Qed.

Lemma reachable_inv_init :
  inv (after_fork listen_fd bootstrap_path frames root_fd
                   mem_cgroup_fd req).
Proof.
  repeat split; simpl; try done.
  - intros pid [|[]]. done.
  - intros [|e [|? ?]] data post H; simplify_eq/=.
Qed.

Lemma inv_parent_move s a rest :
  inv s ->
  sys_parent s = a :: rest ->
  (is_waitpid a = true -> sys_child s = []) ->
  inv (Sys rest (sys_child s) (sys_worker s)
                     (sys_trace s ++ [(ForkServerProc, a)])).
Proof.
  intros (Hp & Hc & Hw & Hs) Hpar Hwait.
  unfold reachable_inv. simpl. rewrite !actions_of_app. simpl.
  rewrite app_nil_r, <- app_assoc. simpl. rewrite <- Hpar.
  split; [done|]. split; [done|]. split.
  - intros pid [Hin|[->|[]]]%in_app_or; [by eapply Hw|by apply Hwait].
  - intros pre data post [(_ & Hx & ->)|(post' & _ & Htr)]%snoc_split.
    + injection Hx as <-.
      rewrite Hpar in Hp.
      destruct (guarded_sound is_waitpid is_sendall _ _ _ _ _
                  parent_program_guarded (eq_sym Hp) eq_refl)
        as [|(y & Hy & Hwy)]; [done|].
      destruct y; try discriminate.
      rewrite (Hw _ Hy), app_nil_r in Hc. exact Hc.
    + by eapply Hs.
Qed.

Lemma inv_child_move s a rest w :
  inv s ->
  sys_child s = a :: rest ->
  inv (Sys (sys_parent s) rest w
                     (sys_trace s ++ [(ChildProc, a)])).
Proof.
  intros (Hp & Hc & Hw & Hs) Hch.
  unfold reachable_inv. simpl. rewrite !actions_of_app. simpl.
  rewrite app_nil_r, <- app_assoc. simpl. rewrite <- Hch.
  split; [done|]. split; [done|]. split.
  - intros pid Hin. apply Hw in Hin. congruence.
  - intros pre data post [(_ & Hx & _)|(post' & _ & Htr)]%snoc_split.
    + discriminate.
    + by eapply Hs.
Qed.

Lemma inv_worker_move s a w :
  inv s ->
  inv (Sys (sys_parent s) (sys_child s) w
                     (sys_trace s ++ [(WorkerProc, a)])).
Proof.
  intros (Hp & Hc & Hw & Hs).
  unfold reachable_inv. simpl. rewrite !actions_of_app. simpl.
  rewrite !app_nil_r.
  split; [done|]. split; [done|]. split; [done|].
  intros pre data post [(_ & Hx & _)|(post' & _ & Htr)]%snoc_split.
  - discriminate.
  - by eapply Hs.
Qed.

Lemma reachable_inv_step who s :
  inv s ->
  inv (step bootstrap_path frames req who s).
Proof.
  intros Hinv. destruct who; simpl.
  - destruct (sys_parent s) as [|a rest] eqn:Hpar; [done|].
    destruct a;
      try (apply inv_parent_move; [done|done|discriminate]).
    destruct (sys_child s) as [|c l] eqn:Hch; [|done].
    rewrite <- Hch. apply inv_parent_move; done.
  - destruct (sys_child s) as [|a rest] eqn:Hch; [done|].
    destruct a; by apply inv_child_move.
  - destruct (sys_worker s) as [[|a rest]|]; try done.
    destruct a; try done; by apply inv_worker_move.
Qed.

Lemma reachable_inv_run sched :
  inv (run_schedule listen_fd bootstrap_path frames root_fd
                   mem_cgroup_fd req sched).
Proof.
  unfold run_schedule.
  generalize reachable_inv_init.
  generalize (after_fork listen_fd bootstrap_path frames root_fd
                mem_cgroup_fd req).
  induction sched as [|who sched IH]; intros s Hs; [done|].
  simpl. by apply IH, reachable_inv_step.
Qed.
End Order.

(** C4 (amended).  However the fork server, the child and the worker are
    interleaved: the fork server sends its reply only when [waitpid] has
    returned, that is when the child has done all it does; the child forks
    the worker, and leaves through [os._exit(0)], only after it has bound
    the socket at the fixed path; hence, whenever [ol.unshare()] returns 0
    and the bind does not raise, the socket has been bound before the reply
    is sent. *)
Theorem reply_after_bind (listen_fd : nat) (bootstrap_path frames : string)
    (root_fd mem_cgroup_fd : nat) (req : request) (sched : list proc) :
  let tr := sys_trace (run_schedule listen_fd bootstrap_path frames root_fd
                         mem_cgroup_fd req sched) in
  let reply data := (ForkServerProc, Sendall (req_client req) data) in
  (forall pre data post,
      tr = pre ++ reply data :: post ->
      actions_of ChildProc pre
      = fst (fs_child_branch listen_fd bootstrap_path frames root_fd
               mem_cgroup_fd req)) /\
  (forall pre a post,
      tr = pre ++ (ChildProc, a) :: post ->
      is_fork_or_exit0 a = true ->
      In (ChildProc, BindUnix SOCK_PATH) pre) /\
  (sb_unshare (req_sandbox req) = 0 ->
   sb_bind (req_sandbox req) = None ->
   forall pre data post,
     tr = pre ++ reply data :: post ->
     In (ChildProc, BindUnix SOCK_PATH) pre).
Proof.
  intros tr reply.
  destruct (reachable_inv_run listen_fd bootstrap_path frames root_fd
              mem_cgroup_fd req sched) as (_ & Hc & _ & Hs).
  fold tr in Hc, Hs.
  split; [exact Hs|]. split.
  - intros pre a post Htr Ha.
    rewrite Htr, actions_of_app in Hc. simpl in Hc.
    rewrite <- app_assoc in Hc. simpl in Hc.
    destruct (guarded_sound is_bind is_fork_or_exit0 _ _ _ _ _
                (child_program_guarded listen_fd bootstrap_path frames
                   root_fd mem_cgroup_fd req) (eq_sym Hc) Ha)
      as [|(y & Hy & Hby)]; [done|].
    destruct y; try discriminate.
    apply String.eqb_eq in Hby as ->. by apply actions_of_In.
  - intros Hun Hbind pre data post Htr.
    apply actions_of_In. rewrite (Hs _ _ _ Htr).
    by apply child_program_binds.
Qed.

Lemma reply_after_bind_witness :
  let tr := sys_trace (run_schedule 3 "/bootstrap.py" "" 6 7 sample_request
                         sample_schedule) in
  tr = take 14 tr ++ (ForkServerProc, Sendall 5 [146; 16; 0; 0])
         :: drop 15 tr /\
  In (ChildProc, BindUnix SOCK_PATH) (take 14 tr).
Proof.
  intros tr.
  assert (Hsplit : tr = take 14 tr
                        ++ (ForkServerProc,
                            Sendall (req_client sample_request)
                                    [146; 16; 0; 0]) :: drop 15 tr)
    by reflexivity.
  split; [exact Hsplit|].
  exact (proj2 (proj2 (reply_after_bind 3 "/bootstrap.py" "" 6 7
                         sample_request sample_schedule))
           eq_refl eq_refl _ _ _ Hsplit).
Defined.

(** C4 as stated fails: when [ol.unshare()] returns -1 in the child, the
    assertion of line 256 ends the child before any socket is bound; the
    wait of the fork server returns all the same and the reply is sent. *)
Lemma reply_without_socket :
  let tr := sys_trace (run_schedule 3 "/bootstrap.py" "" 6 7 unshare_fails
                         (replicate 2 ForkServerProc ++ replicate 8 ChildProc
                          ++ replicate 3 ForkServerProc)) in
  tr = [(ForkServerProc, Fork 4242);
        (ForkServerProc, Close 6); (ForkServerProc, Close 7);
        (ChildProc, Close 3); (ChildProc, Fchdir 6); (ChildProc, Chroot ".");
        (ChildProc, Close 6); (ChildProc, WriteFd 7 "4242");
        (ChildProc, Close 7); (ChildProc, Unshare (-1));
        (ChildProc, Raise AssertionError);
        (ForkServerProc, Waitpid 4242);
        (ForkServerProc, Sendall 5 [146; 16; 0; 0]);
        (ForkServerProc, Close 5)] /\
  In (ForkServerProc, Sendall 5 [146; 16; 0; 0]) tr /\
  forall who path, ~ In (who, BindUnix path) tr.
Proof.
  intros tr. assert (Htr : tr = _) by (vm_compute; reflexivity).
  split; [exact Htr|]. rewrite Htr. split.
  - simpl. tauto.
  - intros who path Hin. simpl in Hin.
    repeat (destruct Hin as [Hin|Hin]; [discriminate|]). done.
Qed.

(** ** The request handler *)

Lemma append_cons (c : ascii) (s t : string) :
  String c s +:+ t = String c (s +:+ t).
Proof. reflexivity. Qed.

Lemma append_nil (s : string) : "" +:+ s = s.
Proof. reflexivity. Qed.

Lemma prefix_spec (n h : string) :
  String.prefix n h = true <-> exists b, h = n +:+ b.
Proof.
  revert h. induction n as [|c n IH]; intros h.
  - split; [intros _; by exists h|intros _; by destruct h].
  - destruct h as [|d h]; simpl.
    + split; [done|]. intros [b Hb]. discriminate.
    + destruct (ascii_dec c d) as [->|Hne].
      * rewrite IH. split; intros [b Hb]; exists b;
          rewrite append_cons in *; congruence.
      * split; [done|]. intros [b Hb]. rewrite append_cons in Hb.
        congruence.
Qed.

Lemma is_infix_spec (n h : string) :
  is_infix n h = true <-> exists a b, h = a +:+ n +:+ b.
Proof.
  induction h as [|d h IH].
  - change (is_infix n "") with (String.prefix n "" || false).
    rewrite orb_false_r, prefix_spec. split.
    + intros [b Hb]. by exists "", b.
    + intros (a & b & Hab). destruct a; [by exists b|discriminate].
  - change (is_infix n (String d h))
      with (String.prefix n (String d h) || is_infix n h).
    rewrite orb_true_iff, prefix_spec, IH. split.
    + intros [[b Hb]|(a & b & Hab)].
      * by exists "", b.
      * exists (String d a), b. by rewrite append_cons, Hab.
    + intros (a & b & Hab). destruct a as [|c a].
      * left. by exists b.
      * right. exists a, b. rewrite append_cons in Hab. congruence.
Qed.

Lemma escape_byte_plain quote c :
  needs_no_escape quote c = true -> escape_byte quote c = String c "".
Proof.
  unfold needs_no_escape, escape_byte.
  intros [[[Hq Hb]%andb_prop Hlo]%andb_prop Hhi]%andb_prop.
  apply negb_true_iff in Hq, Hb. rewrite Hq, Hb. simpl.
  apply Z.leb_le in Hlo. apply Z.ltb_lt in Hhi.
  destruct (Z.eqb_spec (byte_code c) 9); [lia|].
  destruct (Z.eqb_spec (byte_code c) 10); [lia|].
  destruct (Z.eqb_spec (byte_code c) 13); [lia|].
  destruct (Z.ltb_spec (byte_code c) 32); [lia|].
  destruct (Z.leb_spec 127 (byte_code c)); [lia|]. done.
Qed.

Lemma escape_bytes_plain quote data :
  all_plain quote data = true -> escape_bytes quote data = data.
Proof.
  induction data as [|c data IH]; simpl; [done|].
  intros [Hc Hd]%andb_prop. by rewrite escape_byte_plain, IH.
Qed.

Lemma append_assoc (a b c : string) : (a +:+ b) +:+ c = a +:+ b +:+ c.
Proof.
  induction a as [|x a IH]; [done|]. rewrite !append_cons. by rewrite IH.
Qed.

(** C8 (amended).  A non-empty body on which [json.loads] raises an
    exception deriving from [Exception] is answered with status 400 and the
    text [Bad request data: ] followed, between double quotes, by the
    [repr] of the body bytes; the body itself is part of that text whenever
    none of its bytes needs an escape.  When the body is JSON and the
    handler raises an exception deriving from [Exception], the answer has
    status 500 and its body is the traceback, which is never empty.  An
    exception of the handler that does not derive from [Exception] passes
    the clause of line 69: no status is set, nothing is written, and the
    exception leaves the method. *)
Theorem handle_request_errors (value : Type) (empty_dict : value)
    (json_loads : string -> py_exc + option value)
    (json_dumps : value -> py_exc + string)
    (f : value -> py_exc + value) (frames : string) (data : string) :
  data <> "" ->
  (forall err,
      json_loads data = inl err -> exc_is_Exception err = true ->
      let r := handle_request value empty_dict json_loads json_dumps f
                 frames data in
      r = (Response 400 ("Bad request data: "
                         +:+ String dquote (bytes_repr data
                                            +:+ String dquote "")), None) /\
      (all_plain (repr_quote data) data = true ->
       is_infix data (body (fst r)) = true)) /\
  (forall event err,
      json_loads data = inr event ->
      match event with Some ev => f ev | None => f empty_dict end = inl err ->
      exc_is_Exception err = true ->
      handle_request value empty_dict json_loads json_dumps f frames data
      = (Response 500 (format_exc frames err), None) /\
      format_exc frames err <> "") /\
  (forall event err,
      json_loads data = inr event ->
      match event with Some ev => f ev | None => f empty_dict end = inl err ->
      exc_is_Exception err = false ->
      handle_request value empty_dict json_loads json_dumps f frames data
      = (Response 200 "", Some err)).
Proof.
  intros Hdata. split; [|split].
  - intros err Hloads Hexc r.
    assert (Hr : r = (Response 400
                        ("Bad request data: "
                         +:+ String dquote (bytes_repr data
                                            +:+ String dquote "")), None)).
    { subst r. unfold handle_request.
      destruct data; [done|]. by rewrite Hloads, Hexc. }
    split; [exact Hr|]. intros Hplain. rewrite Hr. cbn [fst body].
    apply is_infix_spec. unfold bytes_repr.
    rewrite escape_bytes_plain by done.
    exists ("Bad request data: "
            +:+ String dquote (String "b" (String (repr_quote data) ""))),
      (String (repr_quote data) (String dquote "")).
    repeat (rewrite append_assoc || rewrite append_cons
            || rewrite append_nil).
    reflexivity.
  - intros event err Hloads Hf Hexc. split; [|done].
    unfold handle_request, invoke_handler.
    destruct data; [done|]. rewrite Hloads.
    destruct event; by rewrite Hf, Hexc.
  - intros event err Hloads Hf Hexc.
    unfold handle_request, invoke_handler.
    destruct data; [done|]. rewrite Hloads.
    destruct event; by rewrite Hf, Hexc.
Qed.

Lemma handle_request_errors_witness :
  (let r := handle_request string "{}" sample_loads sample_dumps sample_f ""
              "not json" in
   r = (Response 400 ("Bad request data: "
                      +:+ String dquote ("b'not json'" +:+ String dquote "")),
        None) /\
   is_infix "not json" (body (fst r)) = true) /\
  status (fst (handle_request string "{}" lenient_loads sample_dumps failing_f
                 "" "1")) = 500.
Proof.
  split.
  - destruct (proj1 (handle_request_errors string "{}" sample_loads
                       sample_dumps sample_f "" "not json" ltac:(discriminate))
                _ eq_refl eq_refl) as [Hr Hin].
    split; [exact Hr|]. apply Hin. reflexivity.
  - destruct (proj1 (proj2 (handle_request_errors string "{}" lenient_loads
                              sample_dumps failing_f "" "1"
                              ltac:(discriminate)))
                (Some "1")
                (PyExc "ZeroDivisionError" "division by zero" true)
                eq_refl eq_refl eq_refl) as [Hr _].
    by rewrite Hr.
Defined.

(** C8 as stated fails in two ways.  The body made of an opening brace
    and a newline is not JSON; the answer has status 400, but the newline is
    written as a backslash and the letter n, so the body is not part of the
    answer.  And a handler that calls [sys.exit(3)] on the JSON body [1]
    raises [SystemExit], which line 69 does not catch: the status is not
    500, nothing is written, and the exception leaves the method. *)
Lemma bad_request_body_not_literal :
  let data := String "{" (String "010" "") in
  let r := fst (handle_request string "{}" sample_loads sample_dumps sample_f
                  "" data) in
  (status r = 400 /\
   body r = "Bad request data: " +:+ String dquote ("b'{\n'" +:+ String dquote "")
   /\ ~ exists a b, body r = a +:+ data +:+ b) /\
  handle_request string "{}" lenient_loads sample_dumps exiting_f "" "1"
  = (Response 200 "", Some (PyExc "SystemExit" "3" false)).
Proof.
  intros data r. split; [|reflexivity].
  split; [reflexivity|]. split; [reflexivity|].
  intros Hin%is_infix_spec. vm_compute in Hin. discriminate.
Qed.

(** ** The command line and the seccomp filter *)

Lemma store_enable_seccomp py_int a v ns ns' :
  store py_int a v ns = Some ns' ->
  args_enable_seccomp ns' = args_enable_seccomp ns.
Proof.
  destruct a; simpl; try discriminate.
  - destruct (_ || _); [|discriminate]. by intros [= <-].
  - by intros [= <-].
  - destruct (py_int v); simpl; [|discriminate]. by intros [= <-].
Qed.

Lemma store_true_enable_seccomp a ns :
  args_enable_seccomp ns = true ->
  args_enable_seccomp (store_true a ns) = true.
Proof. by destruct a. Qed.

Lemma consume_enable_seccomp py_int n : forall toks ns extras a,
  (length toks <= n)%nat ->
  args_enable_seccomp ns = true ->
  consume py_int toks ns extras = Parsed a ->
  args_enable_seccomp a = true.
Proof.
  induction n as [|n IH]; intros toks ns extras a Hlen Hns Hrun.
  - destruct toks; [|simpl in Hlen; lia].
    simpl in Hrun. destruct extras; congruence.
  - destruct toks as [|t rest]; simpl in Hrun.
    { destruct extras; congruence. }
    simpl in Hlen.
    destruct t as [s| |[act|] option_string explicit_arg];
      try (eapply IH; [|exact Hns|exact Hrun]; lia).
    destruct (takes_value act).
    + destruct explicit_arg as [v|].
      * destruct (store py_int act v ns) as [ns'|] eqn:Hst; [|done].
        eapply IH; [|by rewrite (store_enable_seccomp _ _ _ _ _ Hst)
                    |exact Hrun]. lia.
      * repeat case_match; try done; simplify_eq;
          (eapply IH; [|erewrite store_enable_seccomp by eassumption;
                        exact Hns|exact Hrun]; simpl in *; lia).
    + destruct explicit_arg as [e|].
      * by destruct (_ && _).
      * destruct act; try done;
          (eapply IH; [|apply store_true_enable_seccomp, Hns|exact Hrun];
           lia).
Qed.

Lemma parse_args_enable_seccomp py_int argv a :
  parse_args py_int argv = Parsed a -> args_enable_seccomp a = true.
Proof.
  unfold parse_args. destruct (classify argv) as [toks|]; [|done].
  by apply (consume_enable_seccomp py_int (length toks)).
Qed.

(** C10.  [--enable-seccomp] is a [store_true] option whose default is
    already [True], so whatever the command line, the parsed argument is
    [True].  In sock mode [main] therefore always calls
    [ol.enable_seccomp()], right after its first message, and asserts that
    the result is not negative: on a negative result the process is left
    by [AssertionError] before anything else happens. *)
Theorem seccomp_always_enabled (py_int : string -> option Z)
    (argv : list string) (env : main_env) (a : args) :
  parse_args py_int argv = Parsed a ->
  args_enable_seccomp a = true /\
  (args_env a = "sock" ->
   exists b,
     main py_int argv env = MainSock b /\
     (exists rest,
         fst b = Stdout "Running in SOCK environment"
                   :: EnableSeccomp (m_seccomp env) :: rest) /\
     (m_seccomp env < 0 ->
      b = ([Stdout "Running in SOCK environment";
            EnableSeccomp (m_seccomp env); Raise AssertionError],
           Raises AssertionError)) /\
     (0 <= m_seccomp env ->
      exists rest,
        fst b = Stdout "Running in SOCK environment"
                  :: EnableSeccomp (m_seccomp env)
                  :: Stdout "seccomp enabled" :: rest)).
Proof.
  intros Hparse.
  pose proof (parse_args_enable_seccomp _ _ _ Hparse) as Hflag.
  split; [exact Hflag|]. intros Henv.
  eexists. split.
  { unfold main. by rewrite Hparse, Henv. }
  unfold main_sock. rewrite Hflag.
  destruct (Z.geb_spec (m_seccomp env) 0) as [Hge|Hlt].
  - assert (Hrest : exists rest,
               fst (act (Stdout "Running in SOCK environment") ;;
                    (act (EnableSeccomp (m_seccomp env)) ;;
                     skip ;; act (Stdout "seccomp enabled")) ;;
                    match args_bootstrap a with
                    | Some (String _ _ as bootstrap_path) =>
                        join_cgroups (m_fdopen env)
                          (py_str_int (m_getpid env))
                          (args_cgroup_count a) ;;
                        start_sock_container bootstrap_path (m_frames env)
                          (m_sandbox env) (sb_fork (m_sandbox env)) ;;
                        end_of_main
                    | _ =>
                        act (Stdout
                               "Error: --bootstrap is required in sock mode.")
                        ;; exit_ 1
                    end)
               = Stdout "Running in SOCK environment"
                   :: EnableSeccomp (m_seccomp env)
                   :: Stdout "seccomp enabled" :: rest).
    { destruct (args_bootstrap a) as [[|c bp]|]; simpl; eauto. }
    destruct Hrest as [rest Hrest].
    split; [|split].
    + rewrite Hrest. eauto.
    + lia.
    + intros _. rewrite Hrest. eauto.
  - split; [|split].
    + simpl. eauto.
    + done.
    + lia.
Qed.

Lemma seccomp_always_enabled_witness :
  args_enable_seccomp
    (Args "sock" (Some "/bootstrap.py") false 2 true) = true /\
  exists b,
    main sample_int
      ["--bootstrap"; "/bootstrap.py"; "--cgroup-count"; "2";
       "--enable-seccomp"] sample_main_env = MainSock b /\
    exists rest,
      fst b = Stdout "Running in SOCK environment"
                :: EnableSeccomp 0 :: Stdout "seccomp enabled" :: rest.
Proof.
  destruct (seccomp_always_enabled sample_int
              ["--bootstrap"; "/bootstrap.py"; "--cgroup-count"; "2";
               "--enable-seccomp"] sample_main_env
              (Args "sock" (Some "/bootstrap.py") false 2 true) eq_refl)
    as [Hflag Hsock].
  split; [exact Hflag|].
  destruct (Hsock eq_refl) as (b & Hmain & _ & _ & Hok).
  exists b. split; [exact Hmain|]. apply Hok. simpl. lia.
Defined.

(** * Further properties of the code *)

(** ** Control lines *)

Lemma append_nil_r (s : string) : s +:+ "" = s.
Proof. induction s as [|c s IH]; [done|]. by rewrite append_cons, IH. Qed.

Lemma no_space_snoc cur c :
  no_space cur = true -> is_space c = false ->
  no_space (cur +:+ String c "") = true.
Proof.
  intros Hcur Hc. induction cur as [|d cur IH].
  - rewrite append_nil. simpl. by rewrite Hc.
  - rewrite append_cons. simpl in *.
    apply andb_prop in Hcur as [-> Hcur]. simpl. by apply IH.
Qed.

Lemma split_from_tokens cur s tok :
  no_space cur = true ->
  In tok (split_from cur s) -> is_token tok = true.
Proof.
  revert cur. induction s as [|c s IH]; intros cur Hcur; simpl.
  - destruct cur as [|d cur]; [done|]. intros [<-|[]].
    unfold is_token. by rewrite Hcur.
  - destruct (is_space c) eqn:Hc.
    + destruct cur as [|d cur]; [by apply IH|].
      intros [<-|Hin]; [|exact (IH "" eq_refl Hin)].
      unfold is_token. by rewrite Hcur.
    + apply IH. by apply no_space_snoc.
Qed.

Lemma split_from_word cur tok s :
  no_space tok = true ->
  split_from cur (tok +:+ s) = split_from (cur +:+ tok) s.
Proof.
  revert cur. induction tok as [|c tok IH]; intros cur Htok.
  - by rewrite append_nil, append_nil_r.
  - simpl in Htok. apply andb_prop in Htok as [Hc Htok].
    apply negb_true_iff in Hc.
    rewrite append_cons. simpl. rewrite Hc, IH by done.
    by rewrite append_assoc.
Qed.

Lemma split_from_words tok toks :
  is_token tok = true ->
  Forall (fun t => is_token t = true) toks ->
  split_from "" (py_join " " (tok :: toks)) = tok :: toks.
Proof.
  intros Htok Htoks. revert tok Htok.
  induction Htoks as [|t toks Ht _ IH]; intros tok Htok;
    apply andb_prop in Htok as [Hne Hns]; apply negb_true_iff in Hne.
  - simpl. rewrite <- (append_nil_r tok) at 1.
    rewrite split_from_word by done. rewrite append_nil. simpl.
    destruct tok; [done|reflexivity].
  - change (py_join " " (tok :: t :: toks))
      with (tok +:+ " " +:+ py_join " " (t :: toks)).
    rewrite split_from_word by done. rewrite append_nil.
    change (" " +:+ py_join " " (t :: toks))
      with (String " " (py_join " " (t :: toks))).
    simpl split_from. destruct tok as [|c tok]; [done|].
    f_equal. exact (IH t Ht).
Qed.

(** X1.  The control protocol round-trips: a line made of module names and
    a signal, joined by single spaces, is parsed back into exactly those
    module names and that signal, provided each of them is a token (not
    empty, no whitespace). *)
Theorem control_line_roundtrip (mods : list string) (signal : string) :
  Forall (fun t => is_token t = true) mods ->
  is_token signal = true ->
  parse_control (py_join " " (mods ++ [signal])) = inr (mods, signal).
Proof.
  intros Hmods Hsig. apply parse_control_tokens. unfold py_split.
  assert (Hall : Forall (fun t => is_token t = true) (mods ++ [signal])).
  { apply Forall_app. split; [done|]. by constructor. }
  destruct (mods ++ [signal]) as [|tok toks] eqn:Heq.
  { by destruct mods. }
  apply Forall_cons in Hall as [Htok Htoks].
  by apply split_from_words.
Qed.

Lemma control_line_roundtrip_witness :
  parse_control (py_join " " (["numpy"; "pandas"] ++ ["cache"]))
  = inr (["numpy"; "pandas"], "cache").
Proof.
  apply (control_line_roundtrip ["numpy"; "pandas"] "cache").
  - repeat constructor.
  - reflexivity.
Defined.

(** X2.  Whatever the line, the module names and the signal that
    [parse_control] returns are tokens: none is empty and none holds a
    whitespace character, so no module name passed to the import is
    blank. *)
Theorem parse_control_gives_tokens (line : string) (mods : list string)
    (signal : string) :
  parse_control line = inr (mods, signal) ->
  is_token signal = true /\ Forall (fun t => is_token t = true) mods.
Proof.
  unfold parse_control.
  destruct (py_split line) as [|tok toks] eqn:Hsplit; [done|].
  intros [= <- <-].
  assert (Hall : forall t, In t (tok :: toks) -> is_token t = true).
  { intros t Hin. rewrite <- Hsplit in Hin.
    by apply (split_from_tokens "" line). }
  destruct (exists_last (l := tok :: toks)) as (l & x & Hl); [done|].
  change (is_token (List.last (tok :: toks) "") = true /\
          Forall (fun t => is_token t = true) (removelast (tok :: toks))).
  rewrite Hl, removelast_last, last_last. rewrite Hl in Hall. split.
  - apply Hall, in_or_app. right. by left.
  - apply List.Forall_forall. intros t Hin. apply Hall, in_or_app. by left.
Qed.

Lemma parse_control_gives_tokens_witness :
  is_token "go" = true /\
  Forall (fun t => is_token t = true) ["a"; "b"].
Proof.
  apply (parse_control_gives_tokens
           (String "009" "a  b" +:+ String "010" " go ") ["a"; "b"] "go").
  reflexivity.
Defined.

(** ** Invariants of the cache loop *)

Lemma parse_control_modules ev mods signal :
  parse_control (ev_line ev) = inr (mods, signal) ->
  mods = request_modules ev /\ all_space (ev_line ev) = false.
Proof.
  unfold parse_control, request_modules.
  destruct (py_split (ev_line ev)) as [|tok toks] eqn:Hsplit; [done|].
  intros [= <- _]. split; [done|].
  destruct (all_space (ev_line ev)) eqn:Hsp; [|done].
  apply py_split_nil_iff in Hsp. unfold py_split in *. congruence.
Qed.

(** One pass through the loop from a state in which the names are intact,
    for a request whose modules leave them so: either the pass is complete
    and [count] has grown by one, or it was left by [IndexError] on a blank
    line, or by an import that raised past [except Exception]. *)
Lemma loop_body_run import_module ev st :
  names_intact st -> harmless import_module (request_modules ev) ->
  exists e st',
    loop_body import_module ev st = (e, st') /\
    names_intact st' /\
    match e with
    | None =>
        cl_count st' = cl_count st + 1 /\ all_space (ev_line ev) = false
    | Some err =>
        cl_count st' = cl_count st /\
        ((err = IndexError /\ all_space (ev_line ev) = true) \/
         (exc_is_Exception err = false /\ ev_fork ev = 0 /\
          exists m, In m (request_modules ev) /\ import_module m = inl err))
    end.
Proof.
  intros Hst Hmods. unfold loop_body, cl_seq.
  rewrite intact_before_listen by done.
  set (st1 := cl_print "LISTENING"
                (if cl_r st =? 0 then cl_print "RESET" st else st)).
  assert (H1 : names_intact st1).
  { apply (names_intact_globals st); [|done]. subst st1.
    by destruct (cl_r st =? 0). }
  assert (Hc1 : cl_count st1 = cl_count st).
  { subst st1. by destruct (cl_r st =? 0). }
  rewrite (intact_flush _ H1). clearbody st1.
  destruct (parse_control (ev_line ev)) as [err|[mods signal]] eqn:Hpc.
  { exists (Some err), st1. split; [done|]. split; [done|]. split; [done|].
    left. apply parse_control_error in Hpc as [-> Hnil]. split; [done|].
    by apply py_split_nil_iff. }
  apply parse_control_modules in Hpc as [-> Hline].
  unfold cl_do.
  assert (H2 : names_intact (set_signal signal st1)).
  { by apply (names_intact_globals st1). }
  destruct (Z.eqb_spec (ev_fork ev) 0) as [Hfork|Hfork].
  - destruct (child_branch_run import_module (request_modules ev) signal
                (set_signal signal st1) H2 Hmods)
      as (e & st2 & -> & Hint & _ & Hcount & He).
    destruct e as [err|].
    + exists (Some err), st2. split; [done|]. split; [done|].
      split; [by rewrite Hcount|]. right. by destruct He.
    + assert (H3 : names_intact (cl_print "" st2)).
      { by apply (names_intact_globals st2). }
      rewrite (intact_print _ _ Hint), (intact_flush _ H3).
      eexists None, _. split; [done|].
      split; [by apply (names_intact_globals st2)|].
      split; [|done]. simpl. rewrite Hcount. simpl. by rewrite Hc1.
  - unfold cl_pass.
    assert (H3 : names_intact (cl_print "" (set_signal signal st1))).
    { by apply (names_intact_globals st1). }
    rewrite (intact_print _ _ H2), (intact_flush _ H3).
    eexists None, _. split; [done|].
    split; [by apply (names_intact_globals st1)|].
    split; [|done]. simpl. by rewrite Hc1.
Qed.

(** How a run that starts with [r] different from 0 and the names intact
    ends, when no request names a module that would rebind one of them:
    either every event has been consumed and the process listens again, or
    the run stopped at the first event whose line is blank or one of whose
    imports raised past [except Exception]. *)
Lemma cache_loop_from_outcome import_module events : forall st,
  cl_r st <> 0 -> names_intact st ->
  Forall (fun ev => harmless import_module (request_modules ev)) events ->
  (exists st',
      cache_loop_from import_module events st = Listening st' /\
      cl_count st' = cl_count st + Z.of_nat (length events)) \/
  (exists done ev rest err st',
      events = done ++ ev :: rest /\
      cache_loop_from import_module events st = Crashed err st' /\
      cl_count st' = cl_count st + Z.of_nat (length done) /\
      ((err = IndexError /\ all_space (ev_line ev) = true) \/
       (exc_is_Exception err = false /\ ev_fork ev = 0 /\
        exists m, In m (request_modules ev) /\ import_module m = inl err))).
Proof.
  induction events as [|ev rest IH]; intros st Hr Hst Hev; simpl;
    rewrite loop_cond_r by done.
  - left. rewrite intact_before_listen by done.
    eexists. split; [done|]. apply Z.eqb_neq in Hr. rewrite Hr. simpl. lia.
  - apply Forall_cons in Hev as [Hmods Hev].
    destruct (loop_body_run import_module ev st Hst Hmods)
      as (e & s & Hb & Hint & He).
    rewrite Hb. destruct e as [err|].
    + right. destruct He as [Hcount Hcause].
      exists [], ev, rest, err, s. simpl. repeat split; try done. lia.
    + destruct He as [Hcount _].
      pose proof (loop_body_r _ _ _ _ _ Hb) as Hrs.
      destruct (IH s) as [(st' & Hrun & Hc)|
                          (pre & ev' & rest' & err & st' & -> & Hrun & Hc & Hcause)];
        [congruence|done|done| |].
      * left. exists st'. split; [done|]. simpl length. lia.
      * right. exists (ev :: pre), ev', rest', err, st'.
        simpl length. repeat split; try done. lia.
Qed.

(** X3.  The cache loop survives every failed import: if no control line
    is blank, the imports raise nothing but exceptions deriving from
    [Exception], and no request names a module that can be imported and
    bears a name that the loop itself reads, then after any sequence of
    requests the process is blocked in [ns.fdlisten] again, and [count] is
    the number of requests it went through. *)
Theorem cache_loop_keeps_listening
    (import_module : string -> py_exc + py_module)
    (events : list cl_event) (out : list out_event) :
  Forall (fun ev => all_space (ev_line ev) = false) events ->
  (forall m e, import_module m = inl e -> exc_is_Exception e = true) ->
  Forall (fun ev => harmless import_module (request_modules ev)) events ->
  exists st,
    cache_loop import_module events out = Listening st /\
    cl_count st = Z.of_nat (length events).
Proof.
  intros Hlines Himp Hmods.
  destruct (cache_loop_from_outcome import_module events (cl_init out))
    as [(st & Hrun & Hc)|
        (pre & ev & rest & err & st & Hev & _ & _ & Hcause)];
    [simpl; lia|apply names_intact_init|done| |].
  - exists st. split; [done|]. simpl in Hc. lia.
  - exfalso. rewrite Hev in Hlines.
    apply Forall_app in Hlines as [_ Hlines].
    apply Forall_cons in Hlines as [Hline _].
    destruct Hcause as [[_ Hblank]|(Hexc & _ & m & _ & Hm)]; [congruence|].
    apply Himp in Hm. congruence.
Qed.

Lemma cache_loop_keeps_listening_witness :
  exists st,
    cache_loop sample_import
      [ClEvent "missing_b cache" 0; ClEvent "good_a go" 7] []
    = Listening st /\
    cl_count st = 2.
Proof.
  apply (cache_loop_keeps_listening sample_import
           [ClEvent "missing_b cache" 0; ClEvent "good_a go" 7] []).
  - repeat constructor.
  - intros m e. unfold sample_import.
    destruct (String.eqb m "missing_b"); [|done]. by intros [= <-].
  - repeat constructor; intros m md [<-|[]] _; vm_compute;
      intuition discriminate.
Defined.

(** X4.  As long as no request names a module that can be imported and
    bears a name that the loop itself reads, the cache loop is left by an
    exception only in two ways: a control line without any token, on which
    indexing the signal raises [IndexError], or an import, in a process to
    which the fork returned 0, that raises something not deriving from
    [Exception].  The run stops at the first such request, and [count] is
    the number of requests before it. *)
Theorem cache_loop_crash_causes
    (import_module : string -> py_exc + py_module)
    (events : list cl_event) (out : list out_event)
    (err : py_exc) (st : cl_state) :
  Forall (fun ev => harmless import_module (request_modules ev)) events ->
  cache_loop import_module events out = Crashed err st ->
  exists done ev rest,
    events = done ++ ev :: rest /\
    cl_count st = Z.of_nat (length done) /\
    ((err = IndexError /\ all_space (ev_line ev) = true) \/
     (exc_is_Exception err = false /\ ev_fork ev = 0 /\
      exists m, In m (request_modules ev) /\ import_module m = inl err)).
Proof.
  intros Hmods Hrun.
  destruct (cache_loop_from_outcome import_module events (cl_init out))
    as [(st' & Hrun' & _)|
        (pre & ev & rest & err' & st' & Hev & Hrun' & Hc & Hcause)];
    [simpl; lia|apply names_intact_init|done| |];
    unfold cache_loop in Hrun; rewrite Hrun' in Hrun.
  - discriminate.
  - injection Hrun as <- <-. exists pre, ev, rest.
    split; [done|]. split; [simpl in Hc; lia|done].
Qed.

Lemma cache_loop_crash_causes_witness :
  exists done ev rest,
    [ClEvent "good_a cache" 0; ClEvent "exits_b go" 0; ClEvent "x go" 0]
    = done ++ ev :: rest /\
    1 = Z.of_nat (length done) /\
    ((PyExc "SystemExit" "3" false = IndexError /\
      all_space (ev_line ev) = true) \/
     (exc_is_Exception (PyExc "SystemExit" "3" false) = false /\
      ev_fork ev = 0 /\
      exists m, In m (request_modules ev) /\
                exiting_import m = inl (PyExc "SystemExit" "3" false))).
Proof.
  eapply (cache_loop_crash_causes exiting_import
            [ClEvent "good_a cache" 0; ClEvent "exits_b go" 0;
             ClEvent "x go" 0] []
            (PyExc "SystemExit" "3" false)
            (ClState "go" (-1) 1 {["good_a" := Module "good_a"]}
               [Printed "LISTENING"; Reopened; Printed "importing: good_a";
                Printed "signal: cache"; Printed ""; Printed "LISTENING";
                Reopened; Printed "importing: exits_b"])).
  - repeat constructor; intros m md [<-|[]] _; vm_compute;
      intuition discriminate.
  - vm_compute. reflexivity.
Defined.

Lemma loop_body_parent import_module ev st mods signal :
  cl_r st <> 0 -> names_intact st ->
  ev_fork ev <> 0 ->
  parse_control (ev_line ev) = inr (mods, signal) ->
  exists st',
    loop_body import_module ev st = (None, st') /\
    cl_r st' = cl_r st /\
    cl_globals st' = cl_globals st /\
    cl_out st' = cl_out st ++ [Printed "LISTENING"; Printed ""].
Proof.
  intros Hr Hst Hfork Hpc. unfold loop_body, cl_seq.
  rewrite intact_before_listen by done.
  apply Z.eqb_neq in Hr, Hfork. rewrite Hr.
  assert (H1 : names_intact (cl_print "LISTENING" st)).
  { by apply (names_intact_globals st). }
  rewrite (intact_flush _ H1), Hpc. unfold cl_do. rewrite Hfork.
  unfold cl_pass.
  assert (H2 : names_intact (set_signal signal (cl_print "LISTENING" st))).
  { by apply (names_intact_globals st). }
  assert (H3 : names_intact
                 (cl_print "" (set_signal signal (cl_print "LISTENING" st)))).
  { by apply (names_intact_globals st). }
  rewrite (intact_print _ _ H2), (intact_flush _ H3).
  eexists. split; [reflexivity|]. simpl.
  by rewrite <- app_assoc.
Qed.

(** X5.  A process to which every fork returns a non-zero value, the
    parent, only spawns: whatever modules the requests name, it imports
    none of them and never redirects its output; all it prints is
    [LISTENING] before each request and an empty line after it. *)
Theorem parent_never_imports
    (import_module : string -> py_exc + py_module)
    (events : list cl_event) (out : list out_event) :
  Forall (fun ev => ev_fork ev <> 0 /\ all_space (ev_line ev) = false)
         events ->
  exists st,
    cache_loop import_module events out = Listening st /\
    cl_globals st = ∅ /\
    cl_out st = out
                ++ flat_map (fun _ => [Printed "LISTENING"; Printed ""]) events
                ++ [Printed "LISTENING"].
Proof.
  intros Hev. unfold cache_loop.
  assert (Hgen : forall st,
             cl_r st <> 0 -> names_intact st ->
             exists st',
               cache_loop_from import_module events st = Listening st' /\
               cl_globals st' = cl_globals st /\
               cl_out st' = cl_out st
                 ++ flat_map (fun _ => [Printed "LISTENING"; Printed ""])
                      events
                 ++ [Printed "LISTENING"]).
  { induction Hev as [|ev rest [Hfork Hline] _ IH]; intros st Hr Hst; simpl;
      rewrite loop_cond_r by done.
    - rewrite intact_before_listen by done.
      eexists. split; [done|]. apply Z.eqb_neq in Hr. by rewrite Hr.
    - destruct (parse_control (ev_line ev)) as [e|[mods signal]] eqn:Hpc.
      { apply parse_control_error in Hpc as [_ Hnil%py_split_nil_iff].
        congruence. }
      destruct (loop_body_parent import_module ev st mods signal
                  Hr Hst Hfork Hpc) as (s & -> & Hrs & Hg & Hout).
      destruct (IH s) as (st' & Hrun & Hg' & Hout');
        [congruence|by apply (names_intact_globals st)|].
      exists st'. split; [done|]. split; [congruence|].
      rewrite Hout', Hout. by rewrite <- !app_assoc. }
  destruct (Hgen (cl_init out)) as (st & Hrun & Hg & Hout);
    [simpl; lia|apply names_intact_init|].
  by exists st.
Qed.

Lemma parent_never_imports_witness :
  exists st,
    cache_loop sample_import
      [ClEvent "good_a cache" 41; ClEvent "good_c go" 42] [] = Listening st /\
    cl_globals st = ∅ /\
    cl_out st = []
                ++ flat_map (fun _ => [Printed "LISTENING"; Printed ""])
                     [ClEvent "good_a cache" 41; ClEvent "good_c go" 42]
                ++ [Printed "LISTENING"].
Proof.
  apply (parent_never_imports sample_import
           [ClEvent "good_a cache" 41; ClEvent "good_c go" 42] []).
  repeat constructor; simpl; lia.
Defined.

(** X6.  The set of imported modules only grows: however a run of the
    cache loop ends, every name that was bound to a module before is still
    bound, and every name bound at the end was bound before or is a module
    that the interpreter can import. *)
Theorem imported_modules_only_grow
    (import_module : string -> py_exc + py_module)
    (events : list cl_event) (st : cl_state) (k : string) :
  let st' := result_state (cache_loop_from import_module events st) in
  (is_Some (cl_globals st !! k) -> is_Some (cl_globals st' !! k)) /\
  (is_Some (cl_globals st' !! k) ->
   is_Some (cl_globals st !! k) \/ exists md, import_module k = inr md).
Proof.
  apply (respects_cache_loop_from
           (fun a b =>
              (is_Some (cl_globals a !! k) -> is_Some (cl_globals b !! k)) /\
              (is_Some (cl_globals b !! k) ->
               is_Some (cl_globals a !! k) \/
               exists md, import_module k = inr md))).
  - tauto.
  - intros a b c [H1 H2] [H3 H4]. split; [tauto|].
    intros Hc. destruct (H4 Hc); [tauto|by right].
  - intros ev s _. simpl. tauto.
  - intros m md s Hm. simpl. destruct (decide (m = k)) as [->|Hne].
    + rewrite lookup_insert_eq. split; [eauto|]. intros _. right. eauto.
    + rewrite lookup_insert_ne by done. tauto.
  - intros s _. simpl. tauto.
  - intros sg s. simpl. tauto.
  - intros s. simpl. tauto.
Qed.

(** X7.  The reset branch of the loop is dead: [r] is still -1 however a
    run of the cache loop ends, so [RESET] is never printed (and
    [ns.reset()] never called), whatever the requests and the values the
    forks return. *)
Theorem reset_never_printed
    (import_module : string -> py_exc + py_module)
    (events : list cl_event) :
  forall out,
    let st := result_state (cache_loop import_module events out) in
    cl_r st = -1 /\
    (In (Printed "RESET") (cl_out st) -> In (Printed "RESET") out).
Proof.
  intros out st.
  assert (HP : cl_r st = cl_r (cl_init out) /\
               (cl_r (cl_init out) <> 0 ->
                ~ In (Printed "RESET") (cl_out (cl_init out)) ->
                ~ In (Printed "RESET") (cl_out st))).
  { subst st. unfold cache_loop.
    apply (respects_cache_loop_from
             (fun a b =>
                cl_r b = cl_r a /\
                (cl_r a <> 0 ->
                 ~ In (Printed "RESET") (cl_out a) ->
                 ~ In (Printed "RESET") (cl_out b)))).
    - done.
    - intros a b c [H1 H2] [H3 H4]. split; [congruence|].
      intros Ha Hno. apply H4; [congruence|]. by apply H2.
    - intros ev s Hev. split; [done|]. intros _ Hno. simpl.
      intros [Hin|[Heq|[]]]%in_app_or; [done|]. congruence.
    - done.
    - intros s Hr. split; [done|]. intros Hne. done.
    - done.
    - done. }
  destruct HP as [Hr Hno]. split; [done|].
  intros Hin. destruct (in_dec (fun a b : out_event =>
                          ltac:(decide equality; apply string_dec))
                          (Printed "RESET") out) as [|Hn]; [done|].
  exfalso. revert Hin. apply Hno; [simpl; lia|done].
Qed.

(** ** The reply encoding *)

Lemma land_255_range x : 0 <= Z.land x 255 < 256.
Proof.
  change 255 with (Z.ones 8). rewrite Z.land_ones by lia.
  apply Z.mod_pos_bound. lia.
Qed.

(** X8.  [struct.pack("I", n)] and [struct.unpack] round-trip: exactly the
    integers of [0, 2^32) are packed, into four bytes each below 256, and
    unpacking those bytes gives the integer back; so two different pids
    never have the same reply. *)
Theorem struct_pack_I_roundtrip (n : Z) :
  (struct_pack_I n = None <-> ~ (0 <= n < 2 ^ 32)) /\
  (forall data,
      struct_pack_I n = Some data ->
      length data = 4%nat /\
      Forall (fun b => 0 <= b < 256) data /\
      struct_unpack_I data = Some n /\
      forall m, struct_pack_I m = Some data -> m = n).
Proof.
  split.
  - unfold struct_pack_I.
    destruct (Z.leb_spec 0 n), (Z.ltb_spec n (2 ^ 32)); simpl;
      split; intros Hx; first [done | lia | exfalso; apply Hx; lia].
  - intros data Hpack.
    destruct (struct_unpack_pack _ _ Hpack) as [Hun Hlen].
    split; [done|]. split; [|split; [done|]].
    + unfold struct_pack_I in Hpack.
      destruct ((0 <=? n) && (n <? 2 ^ 32)); [|done].
      injection Hpack as <-.
      repeat constructor; apply land_255_range.
    + intros m Hm. eapply struct_pack_I_inj; eauto.
Qed.

(** ** The child of the fork server *)

Lemma container_cases bootstrap_path frames env pid :
  let b := (start_sock_container bootstrap_path frames env pid ;; exit_ 1) in
  ends_process (snd b) /\
  forall a, In a (fst b) ->
            match a with
            | Accept _ | RecvFds _ _ | Close _ => False
            | _ => True
            end.
Proof.
  unfold start_sock_container, start_sock_container_pre,
    start_sock_container_post, run_bootstrap.
  destruct env as [u b g bs ex]. simpl.
  destruct (u =? 0); [|simpl; split; [done|]; intros a H;
    repeat (destruct H as [<-|H]; [done|]); done].
  destruct b as [e|]; [simpl; split; [done|]; intros a H;
    repeat (destruct H as [<-|H]; [done|]); done|].
  destruct (pid >=? 0); [|simpl; split; [done|]; intros a H;
    repeat (destruct H as [<-|H]; [done|]); done].
  destruct (pid >? 0); [simpl; split; [done|]; intros a H;
    repeat (destruct H as [<-|H]; [done|]); done|].
  destruct bs as [e|code]; [simpl; split; [done|]; intros a H;
    repeat (destruct H as [<-|H]; [done|]); done|].
  destruct ex as [|e|]; [| destruct (exc_is_Exception e) |];
    simpl; (split; [done|]); intros a H;
    repeat (destruct H as [<-|H]; [done|]); done.
Qed.

Lemma fs_child_branch_split listen_fd bootstrap_path frames root_fd
    mem_cgroup_fd req :
  fs_child_branch listen_fd bootstrap_path frames root_fd mem_cgroup_fd req
  = (fst (child_setup listen_fd root_fd mem_cgroup_fd req)
     ++ fst (start_sock_container bootstrap_path frames (req_sandbox req)
               (sb_fork (req_sandbox req)) ;; exit_ 1),
     snd (start_sock_container bootstrap_path frames (req_sandbox req)
            (sb_fork (req_sandbox req)) ;; exit_ 1)).
Proof. unfold fs_child_branch. by apply and_then_continues. Qed.

(** X9.  A process to which the fork of line 207 returns 0 never goes
    back to accepting connections: whatever the bootstrap does there, the
    pass through the loop ends the process (or never ends), and none of the
    connections that arrive later is accepted by it. *)
Theorem forked_child_never_accepts (listen_fd : nat)
    (bootstrap_path frames : string) (req : request) (later : list request)
    (root_fd mem_cgroup_fd : nat) :
  recv_fds 2 (req_attached req) = [root_fd; mem_cgroup_fd] ->
  req_fork req = 0 ->
  fork_server_loop listen_fd bootstrap_path frames (req :: later)
  = fork_server_iteration listen_fd bootstrap_path frames req /\
  ends_process (snd (fork_server_iteration listen_fd bootstrap_path frames
                       req)) /\
  fst (fork_server_iteration listen_fd bootstrap_path frames req)
  = [Accept (req_client req);
     RecvFds (req_client req) [root_fd; mem_cgroup_fd]; Fork 0]
    ++ fst (fs_child_branch listen_fd bootstrap_path frames root_fd
              mem_cgroup_fd req).
Proof.
  intros Hfds Hfork.
  assert (Hends : ends_process
                    (snd (fs_child_branch listen_fd bootstrap_path frames
                            root_fd mem_cgroup_fd req))).
  { rewrite fs_child_branch_split. apply container_cases. }
  assert (Hit : fork_server_iteration listen_fd bootstrap_path frames req
                = ([Accept (req_client req);
                    RecvFds (req_client req) [root_fd; mem_cgroup_fd];
                    Fork 0]
                   ++ fst (fs_child_branch listen_fd bootstrap_path frames
                             root_fd mem_cgroup_fd req),
                   snd (fs_child_branch listen_fd bootstrap_path frames
                          root_fd mem_cgroup_fd req))).
  { unfold fork_server_iteration. rewrite Hfds, Hfork.
    generalize (fs_child_branch listen_fd bootstrap_path frames root_fd
                  mem_cgroup_fd req).
    by intros [acts fl]. }
  split; [|split].
  - change (fork_server_loop listen_fd bootstrap_path frames (req :: later))
      with (fork_server_iteration listen_fd bootstrap_path frames req ;;
            fork_server_loop listen_fd bootstrap_path frames later).
    apply and_then_stops. rewrite Hit. cbn [snd].
    by destruct (snd (fs_child_branch _ _ _ _ _ _)).
  - by rewrite Hit.
  - by rewrite Hit.
Qed.

Lemma forked_child_never_accepts_witness :
  fork_server_loop 3 "/bootstrap.py" ""
    (Request 5 [6; 7]%nat 0 4242 sample_sandbox :: [second_request])
  = fork_server_iteration 3 "/bootstrap.py" ""
      (Request 5 [6; 7]%nat 0 4242 sample_sandbox) /\
  ends_process
    (snd (fork_server_iteration 3 "/bootstrap.py" ""
            (Request 5 [6; 7]%nat 0 4242 sample_sandbox))).
Proof.
  destruct (forked_child_never_accepts 3 "/bootstrap.py" ""
              (Request 5 [6; 7]%nat 0 4242 sample_sandbox) [second_request]
              6 7 eq_refl eq_refl) as (H1 & H2 & _).
  by split.
Defined.







(** X11.  The fork server handles one request at a time and answers each
    exactly once: over any sequence of requests with two descriptors each,
    its accepts and replies alternate, in the order of arrival, and the
    reply on each connection is the encoding of the pid forked for it. *)
Theorem one_reply_per_request (listen_fd : nat)
    (bootstrap_path frames : string) (reqs : list request) :
  Forall (fun req => length (req_attached req) = 2%nat /\
                     0 < req_fork req < 2 ^ 32) reqs ->
  List.filter is_accept_or_reply
    (fst (fork_server listen_fd bootstrap_path frames reqs))
  = flat_map (fun req => [Accept (req_client req);
                          Sendall (req_client req) (reply_of req)]) reqs.
Proof.
  intros Hreqs. rewrite fork_server_unfold. cbn [fst].
  change (List.filter is_accept_or_reply
            (fst (fork_server_loop listen_fd bootstrap_path frames reqs))
          = flat_map (fun req => [Accept (req_client req);
                                  Sendall (req_client req) (reply_of req)])
              reqs).
  induction Hreqs as [|req reqs [Hlen Hpid] _ IH]; [done|].
  destruct (req_attached req) as [|root_fd [|mem_cgroup_fd [|x l]]] eqn:Hatt;
    try discriminate.
  destruct (struct_pack_I_range (req_fork req)) as [data Hpack]; [lia|].
  assert (Hit : fork_server_iteration listen_fd bootstrap_path frames req
                = ([Accept (req_client req);
                    RecvFds (req_client req) [root_fd; mem_cgroup_fd];
                    Fork (req_fork req);
                    Close root_fd; Close mem_cgroup_fd;
                    Waitpid (req_fork req);
                    Sendall (req_client req) data;
                    Close (req_client req)], Continues)).
  { apply fork_server_iteration_parent; [by rewrite Hatt|lia|done]. }
  assert (Hdata : reply_of req = data).
  { unfold reply_of. by rewrite Hpack. }
  simpl fork_server_loop.
  rewrite and_then_continues by (by rewrite Hit).
  cbn [fst]. rewrite List.filter_app, IH, Hit. simpl. by rewrite Hdata.
Qed.

Lemma one_reply_per_request_witness :
  List.filter is_accept_or_reply
    (fst (fork_server 3 "/bootstrap.py" "" [sample_request; second_request]))
  = flat_map (fun req => [Accept (req_client req);
                          Sendall (req_client req) (reply_of req)])
      [sample_request; second_request].
Proof.
  apply (one_reply_per_request 3 "/bootstrap.py" ""
           [sample_request; second_request]).
  repeat constructor; simpl; lia.
Defined.

(** ** The sandbox bootstrap and [main] *)

(** X12.  The bootstrap script is never run outside the sandbox: if
    [start_sock_container] executes it, then [ol.unshare()] returned 0 and
    the socket was bound before, and the process is the one to which the
    fork returned 0; the script is the content of the bootstrap file, and
    it is executed once. *)
Theorem bootstrap_needs_isolation (bootstrap_path frames : string)
    (env : sandbox_env) (pid : Z) (code : string) :
  In (Exec code) (fst (start_sock_container bootstrap_path frames env pid)) ->
  sb_unshare env = 0 /\ sb_bind env = None /\ pid = 0 /\
  sb_bootstrap env = inr code /\
  exists rest,
    fst (start_sock_container bootstrap_path frames env pid)
    = [Unshare 0; BindUnix SOCK_PATH; Fork 0; ReadFile bootstrap_path;
       Exec code] ++ rest /\
    forall c, ~ In (Exec c) rest.
Proof.
  unfold start_sock_container, start_sock_container_pre,
    start_sock_container_post, run_bootstrap.
  destruct env as [u b g bs ex]. simpl.
  destruct (Z.eqb_spec u 0) as [->|Hu]; simpl;
    [|intros H; repeat (destruct H as [H|H]; [discriminate|]); done].
  destruct b as [e|]; simpl;
    [intros H; repeat (destruct H as [H|H]; [discriminate|]); done|].
  destruct (Z.geb_spec pid 0) as [Hge|Hlt]; simpl;
    [|intros H; repeat (destruct H as [H|H]; [discriminate|]); done].
  destruct (Z.gtb_spec pid 0) as [Hgt|Hle]; simpl;
    [intros H; repeat (destruct H as [H|H]; [discriminate|]); done|].
  assert (pid = 0) as -> by lia.
  destruct bs as [e|script]; simpl;
    [intros H; repeat (destruct H as [H|H]; [discriminate|]); done|].
  assert (Hno : forall (l : list action) c,
             Forall (fun a => is_exec a = false) l -> ~ In (Exec c) l).
  { intros l c Hl Hin. eapply List.Forall_forall in Hl; [|exact Hin].
    discriminate. }
  destruct ex as [|e|]; [| destruct (exc_is_Exception e) |]; simpl;
    intros H;
    repeat (destruct H as [H|H];
            [try discriminate; try (injection H as ->)|]);
    try done;
    (repeat split; try done; eexists; split; [reflexivity|];
     intros c; apply Hno; repeat constructor).
Qed.

Lemma bootstrap_needs_isolation_witness :
  sb_unshare failing_script = 0 /\ sb_bind failing_script = None /\
  0 = 0 /\ sb_bootstrap failing_script = inr "import nothing".
Proof.
  destruct (bootstrap_needs_isolation "/bootstrap.py" "" failing_script 0
              "import nothing") as (H1 & H2 & H3 & H4 & _).
  - vm_compute. tauto.
  - done.
Defined.

Lemma main_sock_shape (a : args) (env : main_env) (pid : Z) :
  args_enable_seccomp a = true ->
  exists rest,
    fst (main_sock a env pid)
    = Stdout "Running in SOCK environment"
        :: EnableSeccomp (m_seccomp env) :: rest /\
    (m_seccomp env < 0 -> rest = [Raise AssertionError]) /\
    (match args_bootstrap a with
     | Some (String _ _) => True
     | _ => forall x, In x rest -> is_container_op x = false
     end).
Proof.
  intros Hflag. unfold main_sock. rewrite Hflag.
  destruct (Z.geb_spec (m_seccomp env) 0) as [Hge|Hlt].
  - destruct (args_bootstrap a) as [[|c bp]|]; simpl.
    + eexists. split; [reflexivity|]. split; [lia|].
      intros x H. repeat (destruct H as [<-|H]; [done|]). done.
    + eexists. split; [reflexivity|]. split; [lia|done].
    + eexists. split; [reflexivity|]. split; [lia|].
      intros x H. repeat (destruct H as [<-|H]; [done|]). done.
  - simpl. eexists. split; [reflexivity|]. split; [done|].
    destruct (args_bootstrap a) as [[|c bp]|]; try done;
      intros x H; repeat (destruct H as [<-|H]; [done|]); done.
Qed.

(** X13.  In sock mode nothing of the container is started before the
    seccomp filter is installed, nor without a bootstrap path: whenever
    [main] unshares, binds, forks, or reads or runs the bootstrap script,
    [ol.enable_seccomp()] was called before and returned a non-negative
    value, and [--bootstrap] was given a non-empty path. *)
Theorem container_only_after_seccomp (py_int : string -> option Z)
    (argv : list string) (env : main_env) (b : block)
    (pre post : list action) (x : action) :
  main py_int argv env = MainSock b ->
  fst b = pre ++ x :: post ->
  is_container_op x = true ->
  In (EnableSeccomp (m_seccomp env)) pre /\
  0 <= m_seccomp env /\
  exists a c path,
    parse_args py_int argv = Parsed a /\
    args_bootstrap a = Some (String c path).
Proof.
  unfold main.
  destruct (parse_args py_int argv) as [a|code] eqn:Hparse; [|done].
  destruct (String.eqb (args_env a) "sock"); [|by destruct (String.eqb _ _)].
  intros [= <-] Hsplit Hx.
  destruct (main_sock_shape a env (sb_fork (m_sandbox env))
              (parse_args_enable_seccomp _ _ _ Hparse))
    as (rest & Hshape & Hneg & Hboot).
  rewrite Hshape in Hsplit.
  destruct pre as [|x1 [|x2 pre]]; simpl in Hsplit.
  { injection Hsplit as <- _. discriminate. }
  { injection Hsplit as _ <- _. discriminate. }
  injection Hsplit as _ <- Hrest.
  assert (Hin : In x rest) by (rewrite Hrest; apply in_or_app; right; by left).
  split; [right; by left|].
  destruct (Z.le_gt_cases 0 (m_seccomp env)) as [Hge|Hlt].
  - split; [done|].
    destruct (args_bootstrap a) as [[|c path]|] eqn:Hbp.
    + specialize (Hboot x Hin). congruence.
    + by exists a, c, path.
    + specialize (Hboot x Hin). congruence.
  - rewrite (Hneg Hlt) in Hin. destruct Hin as [<-|[]]. discriminate.
Qed.

Lemma container_only_after_seccomp_witness :
  In (EnableSeccomp (m_seccomp sample_main_env))
     [Stdout "Running in SOCK environment"; EnableSeccomp 0;
      Stdout "seccomp enabled"] /\
  0 <= m_seccomp sample_main_env.
Proof.
  destruct (container_only_after_seccomp sample_int
              ["--bootstrap"; "/bootstrap.py"] sample_main_env
              (main_sock (Args "sock" (Some "/bootstrap.py") false 0 true)
                 sample_main_env 4243)
              [Stdout "Running in SOCK environment"; EnableSeccomp 0;
               Stdout "seccomp enabled"]
              [BindUnix SOCK_PATH; Fork 4243; Exit 0]
              (Unshare 0) eq_refl eq_refl eq_refl) as (H1 & H2 & _).
  by split.
Defined.







Lemma consume_invariant (P : args -> Prop) py_int :
  (forall a v ns ns', P ns -> store py_int a v ns = Some ns' -> P ns') ->
  (forall a ns, P ns -> P (store_true a ns)) ->
  forall n toks ns extras a,
    (length toks <= n)%nat ->
    P ns -> consume py_int toks ns extras = Parsed a -> P a.
Proof.
  intros Hstore Htrue.
  induction n as [|n IH]; intros toks ns extras a Hlen Hns Hrun.
  - destruct toks; [|simpl in Hlen; lia].
    simpl in Hrun. destruct extras; congruence.
  - destruct toks as [|t rest]; simpl in Hrun.
    { destruct extras; congruence. }
    simpl in Hlen.
    destruct t as [s| |[act|] option_string explicit_arg];
      try (eapply IH; [|exact Hns|exact Hrun]; lia).
    destruct (takes_value act).
    + destruct explicit_arg as [v|].
      * destruct (store py_int act v ns) as [ns'|] eqn:Hst; [|done].
        eapply IH; [|eapply Hstore; eauto|exact Hrun]. lia.
      * repeat case_match; try done; simplify_eq;
          (eapply IH; [|eapply Hstore; eauto|exact Hrun]; simpl in *; lia).
    + destruct explicit_arg as [e|].
      * by destruct (_ && _).
      * destruct act; try done;
          (eapply IH; [|apply Htrue, Hns|exact Hrun]; lia).
Qed.

Lemma parse_args_env py_int argv a :
  parse_args py_int argv = Parsed a ->
  args_env a = "sock" \/ args_env a = "docker".
Proof.
  unfold parse_args. destruct (classify argv) as [toks|]; [|done].
  apply (consume_invariant
           (fun ns => args_env ns = "sock" \/ args_env ns = "docker")
           py_int) with (n := length toks); [| |done|by left].
  - intros act v ns ns' Hns. destruct act; simpl; try done.
    + destruct (String.eqb_spec v "sock") as [->|_]; simpl.
      { intros [= <-]. by left. }
      destruct (String.eqb_spec v "docker") as [->|_]; simpl; [|done].
      intros [= <-]. by right.
    + by intros [= <-].
    + destruct (py_int v); simpl; [|done]. by intros [= <-].
  - intros act ns Hns. by destruct act.
Qed.

(** X15.  The environment is always one of the two known ones: a command
    line that [parse_args] accepts leaves [args.env] equal to [sock] or to
    [docker], so the last branch of [main], the one that reports an unknown
    environment and exits with status 1, is never taken. *)
Theorem main_never_unknown (py_int : string -> option Z)
    (argv : list string) (env : main_env) :
  (forall a, parse_args py_int argv = Parsed a ->
             args_env a = "sock" \/ args_env a = "docker") /\
  (forall b, main py_int argv env <> MainUnknown b).
Proof.
  split; [apply parse_args_env|].
  intros b. unfold main.
  destruct (parse_args py_int argv) as [a|code] eqn:Hparse; [|done].
  destruct (parse_args_env _ _ _ Hparse) as [-> | ->]; done.
Qed.

(** ** Docker mode *)

(** X16.  In Docker mode no web server is ever started.  Without
    [--cache], [web_server_docker] reads the global [initialized], which no
    statement of the file has bound: the call is left by [NameError] before
    the handler is imported or the socket bound.  With [--cache] the cache
    loop is never left, so the call is not even reached. *)
Theorem docker_mode_never_serves (env : server_env)
    (import_module : string -> py_exc + py_module)
    (events : list cl_event) (out : list out_event) (cache : bool) :
  fst (main_docker env import_module events out cache) = [] /\
  (cache = false ->
   web_server_docker env ∅ = (∅, [], Raises (NameError "initialized")) /\
   snd (main_docker env import_module events out cache)
   = Raises (NameError "initialized")).
Proof.
  assert (Hweb : web_server_docker env ∅
                 = (∅, [], Raises (NameError "initialized"))) by reflexivity.
  unfold main_docker. destruct cache.
  - split; [|done].
    destruct (cache_loop import_module events out) as [st| |] eqn:Hrun;
      try done.
    exfalso. revert Hrun. apply cache_loop_from_never_serves. simpl. lia.
  - rewrite Hweb. by split.
Qed.

(** X17.  [web_server_docker] starts a server only if the global
    [initialized] is bound to a false value.  If the name is unbound the
    call raises [NameError]; if it is bound to a true value, a module of
    that name imported by the cache loop included, the call returns at once.
    In both cases nothing is imported, bound or written, and the globals are
    left as they were; and whenever [ready] is written to the pipe, the
    socket was bound before and [initialized] is then true. *)
Theorem web_server_docker_guard (env : server_env)
    (globals : gmap string py_value) :
  let r := web_server_docker env globals in
  let globals' := fst (fst r) in
  let ops := snd (fst r) in
  let fl := snd r in
  (globals !! "initialized" = None ->
   globals' = globals /\ ops = [] /\ fl = Raises (NameError "initialized")) /\
  (forall v, globals !! "initialized" = Some v -> truthy v = true ->
             globals' = globals /\ ops = [] /\ fl = Continues) /\
  (forall path text,
      In (WritePipe path text) ops ->
      globals !! "initialized" = Some (VBool false) /\
      path = SERVER_PIPE_PATH /\ text = "ready" /\
      ops = [ImportHandler; BindSocket SOCK_PATH; AddSocket;
             WritePipe SERVER_PIPE_PATH "ready"; StartIOLoop] /\
      globals' !! "initialized" = Some (VBool true) /\
      fl = Never).
Proof.
  intros r globals' ops fl. subst globals' ops fl r.
  unfold web_server_docker, lookup_global.
  destruct (globals !! "initialized") as [v|] eqn:Hinit.
  - destruct (truthy v) eqn:Hv; simpl.
    + split; [done|]. split; [done|]. intros path text [].
    + split; [done|]. split; [intros v' [= <-]; congruence|].
      assert (v = VBool false) as -> by (by destruct v as [[]| |]).
      destruct (sv_import env) as [e|f]; simpl; [intros ? ? [[=]|[]]|].
      destruct (sv_bind env) as [e|]; simpl; [intros ? ? [[=]|[[=]|[]]]|].
      destruct (sv_pipe env) as [e|]; simpl;
        [intros ? ? [[=]|[[=]|[[=]|[]]]]|].
      intros path text H.
      repeat (destruct H as [H|H]; [try discriminate|]); [|done].
      injection H as <- <-. repeat split. apply lookup_insert_eq.
  - simpl. split; [done|]. split; [done|]. intros path text [].
Qed.

(** ** The request handler, all cases *)

Section HandlerCases.
Variable value : Type.
Variable empty_dict : value.
Variable json_loads : string -> py_exc + option value.
Variable json_dumps : value -> py_exc + string.
Variable f : value -> py_exc + value.
Variable frames : string.

Local Abbreviation run := (handle_request value empty_dict json_loads
                             json_dumps f frames).

(** X18.  The handler is not called on a malformed body: when
    [json.loads] raises on a non-empty body, the answer is the same
    whatever the handler and [json.dumps] are. *)
Theorem bad_body_skips_handler (data : string) (err : py_exc)
    (json_dumps' : value -> py_exc + string) (f' : value -> py_exc + value) :
  data <> "" ->
  json_loads data = inl err ->
  run data
  = handle_request value empty_dict json_loads json_dumps' f' frames data /\
  (exc_is_Exception err = true -> status (fst (run data)) = 400) /\
  (exc_is_Exception err = false ->
   run data = (Response 200 "", Some err)).
Proof.
  intros Hdata Hloads. unfold handle_request.
  destruct data; [done|]. rewrite Hloads.
  destruct (exc_is_Exception err); simpl; repeat split; done.
Qed.

(** X19.  An empty body and a body that is the JSON [null] are answered
    alike: in both cases the handler is called with an empty dict; if it
    returns a result that [json.dumps] accepts, the answer has status 200
    and that text as its body. *)
Theorem empty_body_is_null_body (data : string) :
  json_loads data = inr None ->
  handle_request value empty_dict json_loads json_dumps f frames data
  = handle_request value empty_dict json_loads json_dumps f frames "" /\
  (forall result text,
      f empty_dict = inr result -> json_dumps result = inr text ->
      run data = (Response 200 text, None)).
Proof.
  intros Hloads.
  assert (Heq : run data = run "").
  { unfold handle_request. destruct data; [done|]. by rewrite Hloads. }
  split; [exact Heq|]. intros result text Hf Hd. rewrite Heq.
  unfold handle_request, invoke_handler. by rewrite Hf, Hd.
Qed.

(** X20.  Every request gets one of four answers.  Either something not
    deriving from [Exception] propagates and nothing has been written; or
    the status is 400, the body was not empty and [json.loads] raised on
    it; or the status is 500 and the body of the answer is the traceback of
    an exception raised by the handler or by [json.dumps]; or the status is
    200 and the body of the answer is exactly [json.dumps] of what the
    handler returned for the decoded event. *)
Theorem handle_request_answers (data : string) :
  let r := fst (run data) in
  let event := match data with
               | EmptyString => inr None
               | _ => json_loads data
               end in
  let called := match event with
                | inr (Some ev) => Some (f ev)
                | inr None => Some (f empty_dict)
                | inl _ => None
                end in
  match snd (run data) with
  | Some err =>
      exc_is_Exception err = false /\ r = Response 200 "" /\
      (event = inl err \/ called = Some (inl err) \/
       exists result, called = Some (inr result) /\
                      json_dumps result = inl err)
  | None =>
      (status r = 400 /\ data <> "" /\
       exists err, json_loads data = inl err /\
                   exc_is_Exception err = true) \/
      (status r = 500 /\
       exists err,
         body r = format_exc frames err /\ exc_is_Exception err = true /\
         (called = Some (inl err) \/
          exists result, called = Some (inr result) /\
                         json_dumps result = inl err)) \/
      (status r = 200 /\
       exists result,
         called = Some (inr result) /\ json_dumps result = inr (body r))
  end.
Proof.
  unfold handle_request, invoke_handler.
  destruct data as [|c data].
  - destruct (f empty_dict) as [e|result] eqn:Hf.
    + destruct (exc_is_Exception e) eqn:He; simpl.
      * right. left. split; [done|]. exists e. auto.
      * auto.
    + destruct (json_dumps result) as [e|text] eqn:Hd.
      * destruct (exc_is_Exception e) eqn:He; simpl.
        -- right. left. split; [done|]. exists e. eauto 6.
        -- split; [done|]. split; [done|]. right. right. eauto.
      * simpl. right. right. split; [done|]. exists result. by rewrite Hd.
  - destruct (json_loads (String c data)) as [e|event] eqn:Hl.
    + destruct (exc_is_Exception e) eqn:He; simpl.
      * left. split; [done|]. split; [done|]. eauto.
      * rewrite He. simpl. auto.
    + assert (Hcall : exists res,
                 match event with Some ev => f ev | None => f empty_dict end
                 = res /\
                 match event with
                 | Some ev => Some (f ev)
                 | None => Some (f empty_dict)
                 end = Some res) by (destruct event; eauto).
      destruct Hcall as (res & -> & ->).
      destruct res as [e|result].
      * destruct (exc_is_Exception e) eqn:He; simpl.
        -- right. left. split; [done|]. exists e. auto.
        -- auto.
      * destruct (json_dumps result) as [e|text] eqn:Hd.
        -- destruct (exc_is_Exception e) eqn:He; simpl.
           ++ right. left. split; [done|]. exists e. eauto 6.
           ++ split; [done|]. split; [done|]. right. right. eauto.
        -- simpl. right. right. split; [done|]. exists result.
           by rewrite Hd.
Qed.
End HandlerCases.

Lemma bad_body_skips_handler_witness :
  handle_request string "{}" sample_loads sample_dumps sample_f "" "not json"
  = handle_request string "{}" sample_loads sample_dumps failing_f ""
      "not json".
Proof.
  apply (bad_body_skips_handler string "{}" sample_loads sample_dumps
           sample_f "" "not json"
           (PyExc "json.decoder.JSONDecodeError" "Expecting value" true)
           sample_dumps failing_f).
  - discriminate.
  - reflexivity.
Defined.

Lemma empty_body_is_null_body_witness :
  handle_request string "{}" (fun _ => inr None) sample_dumps sample_f ""
    "null"
  = handle_request string "{}" (fun _ => inr None) sample_dumps sample_f ""
      "".
Proof.
  apply (empty_body_is_null_body string "{}" (fun _ => inr None)
           sample_dumps sample_f "" "null").
  reflexivity.
Defined.

(** ** The WSGI path wrapper *)

Lemma split_on_length sep s : forall cur,
  length (split_on sep cur s) = S (count_char sep s).
Proof.
  induction s as [|c s IH]; intros cur; simpl; [done|].
  destruct (Ascii.eqb c sep); simpl; by rewrite IH.
Qed.

Lemma split_on_join sep s : forall cur,
  py_join (String sep "") (split_on sep cur s) = cur +:+ s.
Proof.
  induction s as [|c s IH]; intros cur.
  - simpl. by rewrite append_nil_r.
  - simpl split_on. destruct (Ascii.eqb_spec c sep) as [->|Hne].
    + pose proof (split_on_length sep s "") as Hlen.
      pose proof (IH "") as Hrest.
      destruct (split_on sep "" s) as [|p ps]; [done|].
      change (py_join (String sep "") (cur :: p :: ps))
        with (cur +:+ String sep "" +:+ py_join (String sep "") (p :: ps)).
      rewrite Hrest. by rewrite append_nil.
    + rewrite IH. by rewrite append_assoc.
Qed.

(** X21.  Splitting a path at the slashes and joining the parts with
    slashes gives the path back, and a path with n slashes has n + 1 parts
    (empty ones included), so never none. *)
Theorem split_join_roundtrip (sep : ascii) (s : string) :
  py_join (String sep "") (py_split_sep sep s) = s /\
  length (py_split_sep sep s) = S (count_char sep s).
Proof.
  unfold py_split_sep. split.
  - by rewrite split_on_join.
  - apply split_on_length.
Qed.

Lemma split_on_word sep w : forall cur,
  has_byte sep w = false ->
  split_on sep cur w = [cur +:+ w].
Proof.
  induction w as [|c w IH]; intros cur Hw.
  - simpl. by rewrite append_nil_r.
  - simpl in Hw. apply orb_false_elim in Hw as [Hc Hw].
    simpl. rewrite Ascii.eqb_sym, Hc. rewrite IH by done.
    by rewrite append_assoc.
Qed.

Lemma split_on_word_sep sep w rest : forall cur,
  has_byte sep w = false ->
  split_on sep cur (w +:+ String sep rest)
  = (cur +:+ w) :: split_on sep "" rest.
Proof.
  induction w as [|c w IH]; intros cur Hw.
  - rewrite append_nil, append_nil_r. simpl. by rewrite Ascii.eqb_refl.
  - simpl in Hw. apply orb_false_elim in Hw as [Hc Hw].
    rewrite append_cons. simpl. rewrite Ascii.eqb_sym, Hc.
    rewrite IH by done. by rewrite append_assoc.
Qed.

Section PathWrapperFacts.
Variable wsgi_result : Type.
Variable app : gmap string string -> wsgi_result.

(** X22.  A request path with fewer than two slashes, a missing
    [PATH_INFO] included, makes the wrapper fail: indexing the function
    name raises [IndexError], the application is not called, and
    [PATH_INFO] has by then been overwritten with a single slash.  With two
    slashes or more the wrapper does not fail. *)
Theorem path_wrapper_short_path (environ : gmap string string) :
  let path := default "" (environ !! "PATH_INFO") in
  ((count_char "/" path < 2)%nat ->
   path_wrapper wsgi_result app environ
   = (<["PATH_INFO" := "/"]> environ, inl IndexError)) /\
  ((2 <= count_char "/" path)%nat ->
   exists environ',
     path_wrapper wsgi_result app environ = (environ', inr (app environ'))).
Proof.
  intros path. unfold path_wrapper. fold path.
  pose proof (split_on_length "/" path "") as Hlen.
  unfold py_split_sep.
  destruct (split_on "/" "" path) as [|p0 [|p1 [|name rest]]] eqn:Hparts;
    simpl in Hlen; simpl; split; intros Hcount; try lia; try done.
  eexists. reflexivity.
Qed.

(** X23.  For a path of the form [/run/<name>/<rest>] the wrapper hands
    the application [PATH_INFO = /<rest>] and [SCRIPT_NAME = /run/<name>],
    which together spell the path again, and changes no other key; for
    [/run/<name>] alone [PATH_INFO] is a single slash.  Whatever the first
    two components of the path are, [SCRIPT_NAME] starts with [/run/]. *)
Theorem path_wrapper_strips_prefix (environ : gmap string string)
    (p0 p1 name : string) :
  has_byte "/" p0 = false -> has_byte "/" p1 = false ->
  has_byte "/" name = false ->
  (environ !! "PATH_INFO" = Some (p0 +:+ "/" +:+ p1 +:+ "/" +:+ name) ->
   let environ' :=
     <["SCRIPT_NAME" := "/run/" +:+ name]>
       (<["PATH_INFO" := "/"]> environ) in
   path_wrapper wsgi_result app environ = (environ', inr (app environ'))) /\
  (forall rest,
      environ !! "PATH_INFO"
      = Some (p0 +:+ "/" +:+ p1 +:+ "/" +:+ name +:+ "/" +:+ rest) ->
      let environ' :=
        <["SCRIPT_NAME" := "/run/" +:+ name]>
          (<["PATH_INFO" := "/" +:+ rest]> environ) in
      path_wrapper wsgi_result app environ = (environ', inr (app environ')) /\
      (p0 = "" -> p1 = "run" ->
       ("/run/" +:+ name) +:+ ("/" +:+ rest)
       = p0 +:+ "/" +:+ p1 +:+ "/" +:+ name +:+ "/" +:+ rest) /\
      forall k, k <> "PATH_INFO" -> k <> "SCRIPT_NAME" ->
                environ' !! k = environ !! k).
Proof.
  intros H0 H1 Hname. split.
  - intros Hpath environ'. subst environ'. unfold path_wrapper, py_split_sep.
    rewrite Hpath. simpl default.
    change (p0 +:+ "/" +:+ p1 +:+ "/" +:+ name)
      with (p0 +:+ String "/" (p1 +:+ String "/" name)).
    rewrite split_on_word_sep by done.
    rewrite split_on_word_sep by done.
    rewrite split_on_word by done.
    rewrite !append_nil. reflexivity.
  - intros rest Hpath environ'. subst environ'. split; [|split].
    + unfold path_wrapper, py_split_sep. rewrite Hpath. simpl default.
      change (p0 +:+ "/" +:+ p1 +:+ "/" +:+ name +:+ "/" +:+ rest)
        with (p0 +:+ String "/" (p1 +:+ String "/"
                                    (name +:+ String "/" rest))).
      rewrite !split_on_word_sep by done.
      rewrite !append_nil. cbn [drop lookup list_lookup].
      rewrite drop_0.
      change (py_join "/" (split_on "/" "" rest))
        with (py_join (String "/" "") (split_on "/" "" rest)).
      rewrite split_on_join, append_nil. reflexivity.
    + intros -> ->. by rewrite append_assoc.
    + intros k Hk1 Hk2. by rewrite !lookup_insert_ne.
Qed.
End PathWrapperFacts.

Lemma path_wrapper_short_path_witness :
  path_wrapper unit (fun _ => tt) {["PATH_INFO" := "/run"]}
  = (<["PATH_INFO" := "/"]> {["PATH_INFO" := "/run"]}, inl IndexError).
Proof.
  apply (proj1 (path_wrapper_short_path unit (fun _ => tt)
                  {["PATH_INFO" := "/run"]})).
  rewrite lookup_singleton_eq. simpl. lia.
Defined.

Lemma path_wrapper_strips_prefix_witness :
  path_wrapper unit (fun _ => tt) {["PATH_INFO" := "/run/echo/a/b"]}
  = (<["SCRIPT_NAME" := "/run/echo"]>
       (<["PATH_INFO" := "/a/b"]> {["PATH_INFO" := "/run/echo/a/b"]}),
     inr tt).
Proof.
  apply (proj2 (path_wrapper_strips_prefix unit (fun _ => tt)
                  {["PATH_INFO" := "/run/echo/a/b"]} "" "run" "echo"
                  eq_refl eq_refl eq_refl) "a/b").
  by rewrite lookup_singleton_eq.
Defined.

(** ** The reply is never held back *)

Section Progress.
Variable listen_fd : nat.
Variables (bootstrap_path frames : string).
Variables (root_fd mem_cgroup_fd : nat).
Variable req : request.

Local Abbreviation parent_program :=
  (fst (parent_branch root_fd mem_cgroup_fd (req_client req) (req_fork req))).
Local Abbreviation child_program :=
  (fst (fs_child_branch listen_fd bootstrap_path frames root_fd mem_cgroup_fd
          req)).
Local Abbreviation steps :=
  (foldl (fun s who => step bootstrap_path frames req who s)).

Lemma child_steps n : forall s,
  sys_child (steps s (replicate n ChildProc)) = drop n (sys_child s) /\
  sys_parent (steps s (replicate n ChildProc)) = sys_parent s.
Proof.
  induction n as [|n IH]; intros s; [by rewrite drop_0|].
  change (steps s (replicate (S n) ChildProc))
    with (steps (step bootstrap_path frames req ChildProc s)
            (replicate n ChildProc)).
  destruct (IH (step bootstrap_path frames req ChildProc s)) as [-> ->].
  simpl. destruct (sys_child s) as [|a rest] eqn:Hc.
  - by rewrite Hc, drop_nil.
  - by destruct a.
Qed.

Lemma parent_steps n : forall s,
  sys_child s = [] ->
  sys_parent (steps s (replicate n ForkServerProc)) = drop n (sys_parent s).
Proof.
  induction n as [|n IH]; intros s Hc; [by rewrite drop_0|].
  change (steps s (replicate (S n) ForkServerProc))
    with (steps (step bootstrap_path frames req ForkServerProc s)
            (replicate n ForkServerProc)).
  simpl step. destruct (sys_parent s) as [|a rest] eqn:Hp.
  - rewrite IH, Hp by done. by rewrite drop_nil.
  - rewrite Hc. destruct a; by rewrite IH.
Qed.

(** X24.  The reply cannot be held back by the worker: from every state
    that the fork server, the child and the worker can reach, letting the
    child and then the fork server run, without a single step of the
    worker, ends with the reply sent.  The child of a request never
    blocks, whether its sandbox setup succeeds or fails, and the fork
    server waits for nothing else. *)
Theorem reply_never_held_back (sched : list proc) :
  0 < req_fork req < 2 ^ 32 ->
  0 < sb_fork (req_sandbox req) ->
  exists ext,
    Forall (fun who => who <> WorkerProc) ext /\
    In (ForkServerProc, Sendall (req_client req) (reply_of req))
       (sys_trace (run_schedule listen_fd bootstrap_path frames root_fd
                     mem_cgroup_fd req (sched ++ ext))).
Proof.
  intros Hpid _.
  set (s := steps (after_fork listen_fd bootstrap_path frames root_fd
                     mem_cgroup_fd req) sched).
  exists (replicate (length (sys_child s)) ChildProc
          ++ replicate (length (sys_parent s)) ForkServerProc).
  split.
  { apply Forall_app. split; apply Forall_replicate; discriminate. }
  pose proof (reachable_inv_run listen_fd bootstrap_path frames root_fd
                mem_cgroup_fd req
                (sched ++ replicate (length (sys_child s)) ChildProc
                 ++ replicate (length (sys_parent s)) ForkServerProc))
    as (Hp & _).
  revert Hp. unfold run_schedule. rewrite !foldl_app. fold s.
  destruct (child_steps (length (sys_child s)) s) as [Hc Hpar].
  rewrite drop_all in Hc.
  pose proof (parent_steps (length (sys_parent s)) _ Hc) as Hdone.
  rewrite Hpar, drop_all in Hdone. rewrite Hdone, app_nil_r. intros Hp.
  apply actions_of_In. rewrite Hp. right.
  unfold parent_branch, reply_of.
  destruct (struct_pack_I_range (req_fork req)) as [data ->]; [lia|].
  simpl. tauto.
Qed.
End Progress.

Lemma reply_never_held_back_witness :
  exists ext,
    Forall (fun who => who <> WorkerProc) ext /\
    In (ForkServerProc, Sendall 5 (reply_of unshare_fails))
       (sys_trace (run_schedule 3 "/bootstrap.py" "" 6 7 unshare_fails
                     ([ForkServerProc; ChildProc] ++ ext))).
Proof.
  apply (reply_never_held_back 3 "/bootstrap.py" "" 6 7 unshare_fails
           [ForkServerProc; ChildProc]); simpl; lia.
Defined.
